(** * Relayer: relay construction and proof generation (packages/relayer/src/relayer.ts)

    A shallow embedding of the [Relayer] class: node selection, session
    membership, the three hashing helpers and the [relay] operation, with
    the JavaScript built-ins they rely on ([JSON.stringify], [Number],
    [Math.random], [toString], [%] and array indexing) and the SHA3-256
    digest of the [js-sha3] dependency.

    Strings are sequences of bytes: the UTF-8 form of a JavaScript string,
    which is what [js-sha3] hashes. An outcome of [Math.random()] is a
    double, held as a rational, and its products are rounded to the nearest
    double as IEEE 754 arithmetic rounds them. Awaited calls run in
    sequence, and the values handed to [relay] do not change while it
    runs. *)

From Stdlib Require Import ZArith NArith QArith Qround Qabs Qpower List String Ascii Bool.
From Stdlib Require Import Lia Lqa.
From Stdlib Require Import DecimalString DecimalZ.
Import ListNotations.

Local Open Scope string_scope.

(** ** SHA3-256 (FIPS 202), as computed by [sha3.sha3_256.create().update(s).hex()]

    [js-sha3] is a dependency of the package; the function is the one of
    the standard, checked below on its published test vectors. *)

Module Sha3.

Local Open Scope N_scope.

Definition mask64 : N := 0xFFFFFFFFFFFFFFFF.

Definition rotl64 (x n : N) : N :=
  N.land (N.lor (N.shiftl x n) (N.shiftr x (64 - n))) mask64.

Definition not64 (x : N) : N := N.lxor x mask64.

(** The state is 25 lanes of 64 bits; lane (x, y) sits at index x + 5y. *)
Definition lane (st : list N) (x y : nat) : N :=
  nth ((x mod 5) + 5 * (y mod 5))%nat st 0.

Definition rotation_offsets : list N :=
  [ 0;  1; 62; 28; 27;
   36; 44;  6; 55; 20;
    3; 10; 43; 25; 39;
   41; 45; 15; 21;  8;
   18;  2; 61; 56; 14].

Definition round_constants : list N :=
  [0x0000000000000001; 0x0000000000008082; 0x800000000000808A;
   0x8000000080008000; 0x000000000000808B; 0x0000000080000001;
   0x8000000080008081; 0x8000000000008009; 0x000000000000008A;
   0x0000000000000088; 0x0000000080008009; 0x000000008000000A;
   0x000000008000808B; 0x800000000000008B; 0x8000000000008089;
   0x8000000000008003; 0x8000000000008002; 0x8000000000000080;
   0x000000000000800A; 0x800000008000000A; 0x8000000080008081;
   0x8000000000008080; 0x0000000080000001; 0x8000000080008008].

Definition theta (st : list N) : list N :=
  let C := map (fun x => fold_left N.lxor (map (lane st x) (seq 0 5)) 0) (seq 0 5) in
  let D := map (fun x => N.lxor (nth ((x + 4) mod 5)%nat C 0)
                                (rotl64 (nth ((x + 1) mod 5)%nat C 0) 1))
               (seq 0 5) in
  map (fun i => N.lxor (nth i st 0) (nth (i mod 5)%nat D 0)) (seq 0 25).

Definition rho_pi (st : list N) : list N :=
  map (fun i =>
         let X := (i mod 5)%nat in
         let Y := (i / 5)%nat in
         let x := ((X + 3 * Y) mod 5)%nat in
         rotl64 (lane st x X) (nth (x + 5 * X)%nat rotation_offsets 0))
      (seq 0 25).

Definition chi (st : list N) : list N :=
  map (fun i =>
         let x := (i mod 5)%nat in
         let y := (i / 5)%nat in
         N.lxor (lane st x y)
                (N.land (not64 (lane st (x + 1) y)) (lane st (x + 2) y)))
      (seq 0 25).

Definition iota (rc : N) (st : list N) : list N :=
  match st with
  | [] => []
  | a :: rest => N.lxor a rc :: rest
  end.

Definition round (st : list N) (rc : N) : list N :=
  iota rc (chi (rho_pi (theta st))).

Definition keccak_f (st : list N) : list N :=
  fold_left round round_constants st.

(** Bytes are numbers below 256; lanes are little-endian. *)
Fixpoint lane_of_bytes (bs : list N) : N :=
  match bs with
  | [] => 0
  | b :: rest => b + 256 * lane_of_bytes rest
  end.

Fixpoint bytes_of_lane (n : nat) (l : N) : list N :=
  match n with
  | O => []
  | S k => (l mod 256) :: bytes_of_lane k (l / 256)
  end.

Fixpoint lanes_of_bytes (n : nat) (bs : list N) : list N :=
  match n with
  | O => []
  | S k => lane_of_bytes (firstn 8 bs) :: lanes_of_bytes k (skipn 8 bs)
  end.

Definition rate : nat := 136.

(** Domain separation 0x06 and the final 0x80 of pad10*1. *)
Definition pad (len : nat) : list N :=
  let q := (rate - len mod rate)%nat in
  match q with
  | 1%nat => [0x86]
  | _ => 0x06 :: repeat 0 (q - 2) ++ [0x80]
  end.

Fixpoint xor_into (st block : list N) : list N :=
  match st, block with
  | s :: st', b :: block' => N.lxor s b :: xor_into st' block'
  | _, _ => st
  end.

Fixpoint absorb (blocks : nat) (st : list N) (bs : list N) : list N :=
  match blocks with
  | O => st
  | S k =>
      let block := lanes_of_bytes 17 (firstn rate bs) in
      absorb k (keccak_f (xor_into st block)) (skipn rate bs)
  end.

Definition digest (msg : list N) : list N :=
  let padded := (msg ++ pad (List.length msg))%list in
  let st := absorb (List.length padded / rate) (repeat 0 25) padded in
  flat_map (bytes_of_lane 8) (firstn 4 st).

Definition hex_digit (n : N) : ascii :=
  if n <? 10 then ascii_of_N (48 + n) else ascii_of_N (87 + n).

Fixpoint hex (bs : list N) : string :=
  match bs with
  | [] => EmptyString
  | b :: rest => String (hex_digit (b / 16)) (String (hex_digit (b mod 16)) (hex rest))
  end.

Fixpoint bytes_of_string (s : string) : list N :=
  match s with
  | EmptyString => []
  | String c rest => N_of_ascii c :: bytes_of_string rest
  end.

(** [sha3.sha3_256.create()], [hash.update(s)], [hash.hex()]. *)
Definition sha3_256 (s : string) : string := hex (digest (bytes_of_string s)).

End Sha3.

(** ** The JavaScript values and built-ins the relayer uses *)

Module Js.

Local Open Scope Z_scope.

Definition double_quote : ascii := ascii_of_nat 34.
Definition backslash : ascii := ascii_of_nat 92.

(** Number values as they are printed and parsed. The finite values held
    here are the integers, and [Int z] is the Number [z] when
    [|z| < 2^53], where every integer is a double and prints as its
    decimal digits; these are the finite values [relay] itself prints
    ([Math.floor] results and block heights). A fractional value has no
    term, and what is stated below of a printed or parsed number is stated
    for integers of that range. *)
Inductive number : Type :=
| Int (z : Z)
| NaN
| Infinity (negative : bool).

Definition decimal (z : Z) : string := NilZero.string_of_int (Z.to_int z).

(** [Number.prototype.toString] *)
Definition Number_toString (n : number) : string :=
  match n with
  | Int z => decimal z
  | NaN => "NaN"
  | Infinity false => "Infinity"
  | Infinity true => "-Infinity"
  end.

(** White space and line terminators of the ASCII range. *)
Definition is_white_space (c : ascii) : bool :=
  match nat_of_ascii c with
  | 9%nat | 10%nat | 11%nat | 12%nat | 13%nat | 32%nat => true
  | _ => false
  end.

Fixpoint trim_start (s : string) : string :=
  match s with
  | String c rest => if is_white_space c then trim_start rest else s
  | EmptyString => EmptyString
  end.

Fixpoint trim_end (s : string) : string :=
  match s with
  | String c rest =>
      match trim_end rest with
      | EmptyString => if is_white_space c then EmptyString else String c EmptyString
      | kept => String c kept
      end
  | EmptyString => EmptyString
  end.

Definition trim (s : string) : string := trim_end (trim_start s).

Definition digit_value (c : ascii) : option Z :=
  let n := Z.of_nat (nat_of_ascii c) in
  if (48 <=? n) && (n <=? 57) then Some (n - 48)
  else if (97 <=? n) && (n <=? 102) then Some (n - 87)
  else if (65 <=? n) && (n <=? 70) then Some (n - 55)
  else None.

Fixpoint digits (radix : Z) (acc : Z) (s : string) : option Z :=
  match s with
  | EmptyString => Some acc
  | String c rest =>
      match digit_value c with
      | Some d => if d <? radix then digits radix (radix * acc + d) rest else None
      | None => None
      end
  end.

(** One or more digits of the radix. *)
Definition integer_literal (radix : Z) (s : string) : number :=
  match s with
  | EmptyString => NaN
  | _ => match digits radix 0 s with Some z => Int z | None => NaN end
  end.

Definition unsigned_decimal (negative : bool) (s : string) : number :=
  if String.eqb s "Infinity" then Infinity negative
  else match integer_literal 10 s with
       | Int z => Int (if negative then - z else z)
       | other => other
       end.

(** The radix and the digits of [0x..], [0o..] and [0b..]. *)
Definition non_decimal (s : string) : option (Z * string) :=
  match s with
  | String zero (String letter body) =>
      if Ascii.eqb zero "0" then
        if Ascii.eqb letter "x" || Ascii.eqb letter "X" then Some (16, body)
        else if Ascii.eqb letter "o" || Ascii.eqb letter "O" then Some (8, body)
        else if Ascii.eqb letter "b" || Ascii.eqb letter "B" then Some (2, body)
        else None
      else None
  | _ => None
  end.

(** [StringToNumber] on the integer literals: surrounding white space of
    the ASCII range, the empty string (zero), a signed run of decimal
    digits, a signed [Infinity] and the unsigned binary, octal and
    hexadecimal integer literals. When the result is [Int z] with
    [|z| < 2^53], it is what JavaScript returns. A literal with a fraction
    or an exponent, or white space outside ASCII, is not read here: the
    result is [NaN] where JavaScript may return a number, so nothing below
    is concluded from a [NaN] that comes from a string. *)
Definition StringToNumber (s : string) : number :=
  match trim s with
  | EmptyString => Int 0
  | String c rest as t =>
      if Ascii.eqb c "+" then unsigned_decimal false rest
      else if Ascii.eqb c "-" then unsigned_decimal true rest
      else match non_decimal t with
           | Some (radix, body) => integer_literal radix body
           | None => unsigned_decimal false t
           end
  end.

(** [Number(s)] applied to a string. *)
Definition Number (s : string) : number := StringToNumber s.

(** [n % d] on Number values. *)
Definition rem (n d : number) : number :=
  match n, d with
  | NaN, _ | _, NaN | Infinity _, _ => NaN
  | Int _, Infinity _ => n
  | Int a, Int b => if b =? 0 then NaN else Int (Z.rem a b)
  end.

(** *** Doubles

    A finite value of the arithmetic is a double, held as the rational it
    is. [round53] rounds a rational to the nearest double, the tie to the
    even significand, as every IEEE 754 operation rounds its exact result:
    to 53 significant bits, and to a multiple of 2^-1074 where the doubles
    are subnormal. A result of magnitude 2^1024 or more, which the
    arithmetic turns into an infinity, is not met here: the products taken
    below are below 2^47. *)

(** The integer nearest a rational, the tie to the even one. *)
Definition nearest_even (q : Q) : Z :=
  let f := Qfloor q in
  match (q - inject_Z f ?= 1 # 2)%Q with
  | Lt => f
  | Gt => f + 1
  | Eq => if Z.even f then f else f + 1
  end.

(** The exponent of the power of two at or below a positive rational. *)
Definition binade (q : Q) : Z :=
  let l := Z.log2 (Qnum q) - Z.log2 (Zpos (Qden q)) in
  if Qle_bool (2 ^ l) q then l else l - 1.

(** The exponent of the last place of the doubles around a positive
    rational. *)
Definition last_place (q : Q) : Z := Z.max (binade q - 52) (-1074).

(** The double nearest a rational of magnitude below 2^1024. *)
Definition round53 (q : Q) : Q :=
  if Qeq_bool q 0 then 0%Q
  else
    let e := last_place (Qabs q) in
    let m := nearest_even (Qabs q / 2 ^ e) in
    ((if Qle_bool 0 q then 1 else -1) * inject_Z m * 2 ^ e)%Q.

(** The rationals that are doubles. *)
Definition double (q : Q) : Prop := (round53 q == q /\ Qabs q < 2 ^ 1024)%Q.

(** [a * b] on doubles whose product is below 2^1024 in magnitude. *)
Definition times (a b : Q) : Q := round53 (a * b).

(** [Math.floor] of a double. *)
Definition floor (q : Q) : number := Int (Qfloor q).

(** [array[n]]: [undefined] off the end and at a key that is no index. *)
Definition index {A : Type} (array : list A) (n : number) : option A :=
  match n with
  | Int z => if z <? 0 then None else nth_error array (Z.to_nat z)
  | _ => None
  end.

(** Values that [JSON.stringify] serialises to a text: [null], numbers,
    strings and plain objects, with their properties in the order in which
    the object enumerates them. [undefined] is no such value. *)
#[warnings="-register-all"] Inductive value : Type :=
| Null
| Num (n : number)
| Str (s : string)
| Obj (properties : list (string * value)).

Definition hex4 (n : N) : string :=
  String backslash (String "u" (String "0" (String "0"
    (String (Sha3.hex_digit (n / 16)) (String (Sha3.hex_digit (n mod 16)) EmptyString))))).

(** [QuoteJSONString], character by character. *)
Definition escape (c : ascii) : string :=
  match N_of_ascii c with
  | 8%N => String backslash "b"
  | 9%N => String backslash "t"
  | 10%N => String backslash "n"
  | 12%N => String backslash "f"
  | 13%N => String backslash "r"
  | 34%N => String backslash (String double_quote EmptyString)
  | 92%N => String backslash (String backslash EmptyString)
  | n => if (n <? 32)%N then hex4 n else String c EmptyString
  end.

Fixpoint escaped (s : string) : string :=
  match s with
  | EmptyString => EmptyString
  | String c rest => escape c ++ escaped rest
  end.

Definition quote (s : string) : string :=
  String double_quote (escaped s ++ String double_quote EmptyString).

Fixpoint stringify (v : value) : string :=
  match v with
  | Null => "null"
  | Num (Int z) => decimal z
  | Num _ => "null"
  | Str s => quote s
  | Obj properties =>
      let members :=
        (fix members (ps : list (string * value)) : string :=
           match ps with
           | [] => EmptyString
           | (k, x) :: rest =>
               quote k ++ ":" ++ stringify x ++
               match rest with
               | [] => EmptyString
               | _ => "," ++ members rest
               end
           end) properties in
      "{" ++ members ++ "}"
  end.

(** The numbers that are printed as JavaScript prints them: those that are
    not finite, and the integers of magnitude below 2^53. *)
Definition safe_number (n : number) : bool :=
  match n with
  | Int z => Z.abs z <? 2 ^ 53
  | _ => true
  end.

(** The values all of whose numbers are such. *)
Fixpoint safe (v : value) : bool :=
  match v with
  | Num n => safe_number n
  | Obj properties => forallb (fun p => safe (snd p)) properties
  | _ => true
  end.

(** [object.key] *)
Fixpoint get (key : string) (properties : list (string * value)) : option value :=
  match properties with
  | [] => None
  | (k, x) :: rest => if String.eqb k key then Some x else get key rest
  end.

Definition property (key : string) (v : value) : option value :=
  match v with
  | Obj properties => get key properties
  | _ => None
  end.

End Js.

(** ** The data model read by the relayer *)

(** The declarations of [Node], [PocketAAT], [SessionHeader], [Session]
    and [RelayHeaders] are imported from [@pokt-foundation/pocketjs-types]
    and are missing from the source; each record below carries the fields
    that [relayer.ts] reads. *)

(** Modelled from the spec: the type [Node] of the types package, a
    service node descriptor whose identity is its public key (section 3). *)
Record Node : Type := {
  publicKey : string;
  serviceUrl : string
}.

(** Modelled from the spec: the type [PocketAAT] of the types package:
    version, client and application public keys, application signature
    (section 3). *)
Record PocketAAT : Type := {
  version : string;
  clientPublicKey : string;
  applicationPublicKey : string;
  applicationSignature : string
}.

(** A value of type [bigint | string | number], as [generateProofBytes]
    receives for the entropy; a block height is a [string | number]. *)
Inductive numeric : Type :=
| OfNumber (n : Js.number)
| OfBigInt (z : Z)
| OfString (s : string).

(** Modelled from the spec: the type [SessionHeader] of the types package:
    application public key, blockchain id and block height (section 3). *)
Record SessionHeader : Type := {
  applicationPubKey : string;
  chain : string;
  sessionBlockHeight : numeric
}.

(** Modelled from the spec: the type [Session] of the types package: a
    header and an ordered list of nodes (section 3). *)
Record Session : Type := {
  header : SessionHeader;
  nodes : list Node
}.

(** [RelayHeaders | null]: the header names and values, in the order in
    which the object enumerates them. *)
Definition RelayHeaders : Type := option (list (string * string)).

(** [x.toString()] *)
Definition toString (x : numeric) : string :=
  match x with
  | OfNumber n => Js.Number_toString n
  | OfBigInt z => Js.decimal z
  | OfString s => s
  end.

(** ** Exceptions, collaborators and the observable effects of a call *)

Inductive exception : Type :=
| Error (message : string)
| RelayError (code : Z) (message : string).

(** The failures of [relay], under the names of section 7 of the spec. *)
Definition MissingSignerError : exception := Error "You need a signer to send a relay".
Definition NoServiceNodeError : exception := Error "Couldn't find a service node.".
Definition NodeNotInSessionError : exception := Error "Node is not in the current session".

(** [KeyManager | AbstractSigner]: signing may reject. *)
Record KeyManager : Type := {
  sign : string -> exception + string;
  getPublicKey : string
}.

(** Modelled from the spec: the type [RelayResponse] of the types package:
    signature, payload and the echoed proof (section 4.5). *)
Record RelayResponse : Type := {
  response_signature : string;
  response_payload : string;
  response_proof : Js.value
}.

(** Modelled from the spec: what the provider's [relay] resolves to, which
    is declared in the provider package: either an embedded error
    indicator, with the code and message the node reported, or the node's
    answer (section 4.5). *)
Inductive RawResponse : Type :=
| NodeError (code : Z) (message : string)
| NodeAnswer (answer : RelayResponse).

(** Modelled from the spec: [validateRelayResponse] of [./errors], which
    is missing from the source: it fails with a [RelayError] carrying the
    reported code and message when the response embeds an error, and
    returns the response otherwise (section 4.5). *)
Definition validateRelayResponse (relay : RawResponse) : exception + RelayResponse :=
  match relay with
  | NodeError code message => inl (RelayError code message)
  | NodeAnswer answer => inr answer
  end.

(** [JsonRpcProvider]: [relay(request, serviceUrl)] may fail. *)
Record JsonRpcProvider : Type := {
  provider_relay : Js.value -> string -> exception + RawResponse
}.

(** What a call does, in order: an outcome of [Math.random()], a digest
    returned by [generateProofBytes] or [hashRequest], a payload handed to
    the signer, a request handed to the provider. *)
Inductive event : Type :=
| Random (r : Q)
| Hashed (digest : string)
| Signed (payload : string)
| Sent (request : Js.value) (url : string).

(** The ambient state: the outcomes [Math.random()] will produce, how many
    were consumed, and the events so far. *)
Record World : Type := {
  random : nat -> Q;
  drawn : nat;
  trace : list event
}.

Definition M (A : Type) : Type := World -> (exception + A) * World.

Definition ret {A : Type} (a : A) : M A := fun w => (inr a, w).

Definition bind {A B : Type} (m : M A) (k : A -> M B) : M B :=
  fun w =>
    match m w with
    | (inl e, w') => (inl e, w')
    | (inr a, w') => k a w'
    end.

Definition throw {A : Type} (e : exception) : M A := fun w => (inl e, w).

Definition emit (e : event) : M unit :=
  fun w => (inr tt, {| random := random w; drawn := drawn w; trace := trace w ++ [e] |}).

Definition lift {A : Type} (r : exception + A) : M A := fun w => (r, w).

Declare Scope relay_scope.
Delimit Scope relay_scope with relay.
Notation "x <- m ;; k" := (bind m (fun x => k))
  (at level 100, m at next level, right associativity) : relay_scope.
Notation "m ;; k" := (bind m (fun _ => k))
  (at level 100, right associativity) : relay_scope.

(** [Math.random()] *)
Definition Math_random : M Q :=
  fun w =>
    let r := random w (drawn w) in
    (inr r, {| random := random w; drawn := S (drawn w); trace := trace w ++ [Random r] |}).

(** A call to a hashing helper, recorded with the digest it returns. *)
Definition hashing (digest : string) : M string :=
  (emit (Hashed digest) ;; ret digest)%relay.

(** [await keyManager.sign(payload)] *)
Definition await_sign (keyManager : KeyManager) (payload : string) : M string :=
  (emit (Signed payload) ;; lift (sign keyManager payload))%relay.

(** [await provider.relay(request, url)] *)
Definition await_relay (provider : JsonRpcProvider) (request : Js.value) (url : string)
  : M RawResponse :=
  (emit (Sent request url) ;; lift (provider_relay provider request url))%relay.

(** ** The [Relayer] class *)

Module Relayer.

Record t : Type := {
  keyManager : option KeyManager;
  provider : JsonRpcProvider;
  dispatchers : list string
}.

(** [hashRequest] *)
Definition hashRequest (requestHash : Js.value) : string :=
  Sha3.sha3_256 (Js.stringify requestHash).

(** [hashAAT] *)
Definition hashAAT (aat : PocketAAT) : string :=
  let token := Js.Obj [
    ("version", Js.Str (version aat));
    ("app_pub_key", Js.Str (applicationPublicKey aat));
    ("client_pub_key", Js.Str (clientPublicKey aat));
    ("signature", Js.Str EmptyString)
  ] in
  Sha3.sha3_256 (Js.stringify token).

(** The object [generateProofBytes] serialises. *)
Definition proofJSON (entropy sessionBlockHeight : numeric)
    (servicerPublicKey blockchain : string) (pocketAAT : PocketAAT)
    (requestHash : Js.value) : Js.value :=
  Js.Obj [
    ("entropy", Js.Num (Js.Number (toString entropy)));
    ("session_block_height", Js.Num (Js.Number (toString sessionBlockHeight)));
    ("servicer_pub_key", Js.Str servicerPublicKey);
    ("blockchain", Js.Str blockchain);
    ("signature", Js.Str EmptyString);
    ("token", Js.Str (hashAAT pocketAAT));
    ("request_hash", Js.Str (hashRequest requestHash))
  ].

Definition proofJSONStr (entropy sessionBlockHeight : numeric)
    (servicerPublicKey blockchain : string) (pocketAAT : PocketAAT)
    (requestHash : Js.value) : string :=
  Js.stringify (proofJSON entropy sessionBlockHeight servicerPublicKey
                          blockchain pocketAAT requestHash).

(** [generateProofBytes] *)
Definition generateProofBytes (entropy sessionBlockHeight : numeric)
    (servicerPublicKey blockchain : string) (pocketAAT : PocketAAT)
    (requestHash : Js.value) : string :=
  Sha3.sha3_256 (proofJSONStr entropy sessionBlockHeight servicerPublicKey
                              blockchain pocketAAT requestHash).

(** [hashRequest] on its argument of type [any]: [undefined], here [None],
    or a value that [JSON.stringify] serialises. [JSON.stringify(undefined)]
    is [undefined], which [hash.update] of [js-sha3] refuses. *)
Definition hashRequest_any (requestHash : option Js.value) : exception + string :=
  match requestHash with
  | Some value => inr (hashRequest value)
  | None => inl (Error "input is invalid type")
  end.

(** [generateProofBytes] on a [requestHash] of type [any]: the failure of
    [hashRequest] is its own. *)
Definition generateProofBytes_any (entropy sessionBlockHeight : numeric)
    (servicerPublicKey blockchain : string) (pocketAAT : PocketAAT)
    (requestHash : option Js.value) : exception + string :=
  match hashRequest_any requestHash with
  | inl failure => inl failure
  | inr request_hash =>
      inr (Sha3.sha3_256 (Js.stringify (Js.Obj [
        ("entropy", Js.Num (Js.Number (toString entropy)));
        ("session_block_height", Js.Num (Js.Number (toString sessionBlockHeight)));
        ("servicer_pub_key", Js.Str servicerPublicKey);
        ("blockchain", Js.Str blockchain);
        ("signature", Js.Str EmptyString);
        ("token", Js.Str (hashAAT pocketAAT));
        ("request_hash", Js.Str request_hash)
      ])))
  end.

(** [isNodeInSession] *)
Definition isNodeInSession (session : Session) (node : Node) : bool :=
  match find (fun n => String.eqb (publicKey n) (publicKey node)) (nodes session) with
  | Some _ => true
  | None => false
  end.

(** The index [rng] that [getRandomSessionNode] computes from a draw. *)
Definition rng (nodesInSession : nat) (r : Q) : Js.number :=
  Js.rem (Js.floor (Js.times r (inject_Z 100))) (Js.Int (Z.of_nat nodesInSession)).

(** [getRandomSessionNode]; [None] is [undefined]. *)
Definition getRandomSessionNode (session : Session) : M (option Node) :=
  (let nodesInSession := List.length (nodes session) in
   r <- Math_random ;;
   ret (Js.index (nodes session) (rng nodesInSession r)))%relay.

(** The argument of [relay]; [node] may be absent, [headers] may be
    [null], and an [HTTPMethod] is its string. *)
Record RelayArgs : Type := {
  blockchain : string;
  data : string;
  headers : RelayHeaders;
  method : string;
  node : option Node;
  path : string;
  pocketAAT : PocketAAT;
  session : Session
}.

Definition headersJSON (headers : RelayHeaders) : Js.value :=
  match headers with
  | None => Js.Null
  | Some fields => Js.Obj (map (fun kv => (fst kv, Js.Str (snd kv))) fields)
  end.

(** The constants of the static [relay], as functions of what they are
    built from. *)
Definition relayPayload (a : RelayArgs) : Js.value :=
  Js.Obj [
    ("data", Js.Str (data a));
    ("method", Js.Str (method a));
    ("path", Js.Str (path a));
    ("headers", headersJSON (headers a))
  ].

Definition relayMeta (a : RelayArgs) : Js.value :=
  Js.Obj [
    ("block_height", Js.Num (Js.Number (toString (sessionBlockHeight (header (session a))))))
  ].

Definition requestHash (a : RelayArgs) : Js.value :=
  Js.Obj [
    ("payload", relayPayload a);
    ("meta", relayMeta a)
  ].

(** [Number(BigInt(Math.floor(Math.random() * 99999999999999)))] *)
Definition entropy (r : Q) : Js.number :=
  Js.floor (Js.times r (inject_Z 99999999999999)).

Definition proofBytes (a : RelayArgs) (entropy : Js.number) (servicerPubKey : string)
  : string :=
  generateProofBytes
    (OfNumber entropy)
    (OfNumber (Js.Number (toString (sessionBlockHeight (header (session a))))))
    servicerPubKey (blockchain a) (pocketAAT a) (requestHash a).

Definition relayProof (a : RelayArgs) (entropy : Js.number)
    (servicerPubKey signedProofBytes request_hash : string) : Js.value :=
  Js.Obj [
    ("entropy", Js.Num (Js.Number (toString (OfNumber entropy))));
    ("session_block_height",
     Js.Num (Js.Number (toString (sessionBlockHeight (header (session a))))));
    ("servicer_pub_key", Js.Str servicerPubKey);
    ("blockchain", Js.Str (blockchain a));
    ("aat", Js.Obj [
       ("version", Js.Str (version (pocketAAT a)));
       ("app_pub_key", Js.Str (applicationPublicKey (pocketAAT a)));
       ("client_pub_key", Js.Str (clientPublicKey (pocketAAT a)));
       ("signature", Js.Str (applicationSignature (pocketAAT a)))
     ]);
    ("signature", Js.Str signedProofBytes);
    ("request_hash", Js.Str request_hash)
  ].

Definition relayRequest (a : RelayArgs) (relayProof : Js.value) : Js.value :=
  Js.Obj [
    ("payload", relayPayload a);
    ("meta", relayMeta a);
    ("proof", relayProof)
  ].

(** The static [relay]. *)
Definition relay (a : RelayArgs) (keyManager : option KeyManager)
    (provider : JsonRpcProvider) : M RelayResponse :=
  match keyManager with
  | None => throw (Error "You need a signer to send a relay")
  | Some keyManager =>
    (serviceNode <-
       match node a with
       | Some node => ret (Some node)
       | None => getRandomSessionNode (session a)
       end ;;
     match serviceNode with
     | None => throw (Error "Couldn't find a service node.")
     | Some serviceNode =>
       if negb (isNodeInSession (session a) serviceNode)
       then throw (Error "Node is not in the current session")
       else
         let servicerPubKey := publicKey serviceNode in
         r <- Math_random ;;
         let entropy := entropy r in
         proofBytes <- hashing (proofBytes a entropy servicerPubKey) ;;
         signedProofBytes <- await_sign keyManager proofBytes ;;
         request_hash <- hashing (hashRequest (requestHash a)) ;;
         let relayProof :=
           relayProof a entropy servicerPubKey signedProofBytes request_hash in
         relay <- await_relay provider (relayRequest a relayProof) (serviceUrl serviceNode) ;;
         lift (validateRelayResponse relay)
     end)%relay
  end.

(** The instance method [relay]. *)
Definition relay_method (self : t) (a : RelayArgs) : M RelayResponse :=
  match keyManager self with
  | None => throw (Error "You need a signer to send a relay")
  | Some _ => relay a (keyManager self) (provider self)
  end.

End Relayer.

(** A string of the digits [0-9a-f]. *)
Definition lowercase_hex (s : string) : bool :=
  forallb (fun c => existsb (Ascii.eqb c) (list_ascii_of_string "0123456789abcdef"))
          (list_ascii_of_string s).

(** ** What a trace shows *)

Definition sent (t : list event) : list (Js.value * string) :=
  flat_map (fun e => match e with Sent request url => [(request, url)] | _ => [] end) t.

Definition hashed (t : list event) : list string :=
  flat_map (fun e => match e with Hashed digest => [digest] | _ => [] end) t.

Definition signed (t : list event) : list string :=
  flat_map (fun e => match e with Signed payload => [payload] | _ => [] end) t.

(** Every outcome of [Math.random()] lies in [0, 1). *)
Definition unit_interval (r : Q) : Prop := 0 <= r /\ r < 1.

(** It is a double of that interval. *)
Definition outcome (r : Q) : Prop := Js.double r /\ unit_interval r.

(** ** The random index, value by value *)

(** The values that [Math.floor(Math.random() * 100)] takes. *)
Definition floors : list nat := seq 0 100.

(** An outcome that gives the value [d]: a multiple of 1/128 whose product
    with 100 lies between [d] and [d + 1]. *)
Definition draw_of (d : nat) : Q := Z.of_nat (32 * d / 25 + 1) # 128.

(** [draw_of d] is a double of [0, 1) whose value is [d]. *)
Definition draws_value (d : nat) : bool :=
  Qeq_bool (Js.round53 (draw_of d)) (draw_of d) &&
  Qle_bool 0 (draw_of d) && negb (Qle_bool 1 (draw_of d)) &&
  (Qfloor (Js.times (draw_of d) (inject_Z 100)) =? Z.of_nat d)%Z.

Definition number_eqb (a b : Js.number) : bool :=
  match a, b with
  | Js.Int x, Js.Int y => (x =? y)%Z
  | Js.NaN, Js.NaN => true
  | Js.Infinity x, Js.Infinity y => Bool.eqb x y
  | _, _ => false
  end.

(** How many of the hundred values [d] make [d % nodesInSession] the
    index [i]. *)
Definition hits (nodesInSession i : nat) : nat :=
  List.length
    (filter (fun d => number_eqb
                        (Js.rem (Js.Int (Z.of_nat d)) (Js.Int (Z.of_nat nodesInSession)))
                        (Js.Int (Z.of_nat i)))
            floors).

(** Every index below [n] is the index of as many values as every other:
    the hundred values are shared out equally. *)
Definition uniform (n : nat) : Prop :=
  forall i, (i < n)%nat -> (hits n i * n = 100)%nat.

(** ** The statements of the specification, in its words *)

Module Spec.

(** Section 4.1, [CanonicalHasher.hash]. *)
Definition hash (value : Js.value) : string := Sha3.sha3_256 (Js.stringify value).

(** Section 4.3, [hashAAT]. *)
Definition hashAAT (aat : PocketAAT) : string :=
  hash (Js.Obj [("version", Js.Str (version aat));
                ("app_pub_key", Js.Str (applicationPublicKey aat));
                ("client_pub_key", Js.Str (clientPublicKey aat));
                ("signature", Js.Str EmptyString)]).

(** Section 4.3, [hashRequest]. *)
Definition hashRequest (payload meta : Js.value) : string :=
  hash (Js.Obj [("payload", payload); ("meta", meta)]).

(** Section 4.3, [buildProofBytes]; the numeric fields hold the numbers
    their arguments denote. *)
Definition buildProofBytes (entropy sessionBlockHeight : Js.number)
    (servicerPublicKey blockchainId : string) (aat : PocketAAT)
    (requestHashInputs : Js.value) : string :=
  hash (Js.Obj [("entropy", Js.Num entropy);
                ("session_block_height", Js.Num sessionBlockHeight);
                ("servicer_pub_key", Js.Str servicerPublicKey);
                ("blockchain", Js.Str blockchainId);
                ("signature", Js.Str EmptyString);
                ("token", Js.Str (hashAAT aat));
                ("request_hash", Js.Str (hash requestHashInputs))]).

(** Section 4.2: [selectRandom] fails on a session without nodes. *)
Definition selectRandom_fails_on_empty : Prop :=
  forall session w, nodes session = [] ->
    exists e, fst (Relayer.getRandomSessionNode session w) = inl e.


(** Section 4.2: the index ranges over [[0, len(nodes))]: every index of
    the session is selected, by some outcome of the random source. *)
Definition selectRandom_uniform : Prop :=
  forall session i, (i < List.length (nodes session))%nat ->
    exists r, outcome r /\
      Relayer.rng (List.length (nodes session)) r = Js.Int (Z.of_nat i).

(** Section 4.4: a supplied node outside the session fails the call with
    [NodeNotInSessionError], and nothing is sent. *)
Definition outsider_fails : Prop :=
  forall a keyManager provider w n,
    Relayer.node a = Some n ->
    ~ In (publicKey n) (map publicKey (nodes (Relayer.session a))) ->
    fst (Relayer.relay a keyManager provider w) = inl NodeNotInSessionError /\
    sent (trace (snd (Relayer.relay a keyManager provider w))) = sent (trace w).

(** Section 4.4: no node supplied and no node in the session fails the
    call with [NoServiceNodeError], and nothing is sent. *)
Definition empty_session_fails : Prop :=
  forall a keyManager provider w,
    Relayer.node a = None ->
    nodes (Relayer.session a) = [] ->
    fst (Relayer.relay a keyManager provider w) = inl NoServiceNodeError /\
    sent (trace (snd (Relayer.relay a keyManager provider w))) = sent (trace w).

(** Membership by public key alone: the call passes the check and is
    dispatched to the service URL of the supplied node. *)
Definition member_is_dispatched : Prop :=
  forall a keyManager provider w n,
    Relayer.node a = Some n ->
    In (publicKey n) (map publicKey (nodes (Relayer.session a))) ->
    Relayer.isNodeInSession (Relayer.session a) n = true /\
    exists request,
      sent (trace (snd (Relayer.relay a keyManager provider w))) =
      (sent (trace w) ++ [(request, serviceUrl n)])%list.

(** Section 8: changing only the entropy changes the digest. *)
Definition entropy_changes_digest : Prop :=
  forall e1 e2 height servicer chain aat requestHash,
    e1 <> e2 ->
    Relayer.generateProofBytes e1 height servicer chain aat requestHash <>
    Relayer.generateProofBytes e2 height servicer chain aat requestHash.

End Spec.

(** ** A session of three nodes and a call on it *)

Module Sample.

Definition aat : PocketAAT := {|
  version := "0.0.1";
  clientPublicKey := "c1f0";
  applicationPublicKey := "a1f0";
  applicationSignature := "5e11"
|}.

Definition nodeA : Node := {| publicKey := "aa01"; serviceUrl := "https://a.example:443" |}.
Definition nodeB : Node := {| publicKey := "bb02"; serviceUrl := "https://b.example:443" |}.
Definition nodeC : Node := {| publicKey := "cc03"; serviceUrl := "https://c.example:443" |}.

(** The public key of [nodeB] under another service URL. *)
Definition nodeB' : Node := {| publicKey := "bb02"; serviceUrl := "https://elsewhere.example" |}.

Definition stranger : Node := {| publicKey := "dd04"; serviceUrl := "https://d.example:443" |}.

Definition sessionHeader : SessionHeader := {|
  applicationPubKey := "a1f0";
  chain := "0021";
  sessionBlockHeight := OfNumber (Js.Int 4321)
|}.

Definition session : Session := {| header := sessionHeader; nodes := [nodeA; nodeB; nodeC] |}.

Definition emptySession : Session := {| header := sessionHeader; nodes := [] |}.

Definition args (s : Session) (n : option Node) : Relayer.RelayArgs := {|
  Relayer.blockchain := "0021";
  Relayer.data := "{}";
  Relayer.headers := None;
  Relayer.method := "POST";
  Relayer.node := n;
  Relayer.path := "/v1";
  Relayer.pocketAAT := aat;
  Relayer.session := s
|}.

Definition signer : KeyManager := {|
  sign := fun payload => inr ("signed:" ++ payload);
  getPublicKey := "c1f0"
|}.

Definition answer : RelayResponse := {|
  response_signature := "7a";
  response_payload := "ok";
  response_proof := Js.Null
|}.

Definition provider : JsonRpcProvider := {|
  provider_relay := fun _ _ => inr (NodeAnswer answer)
|}.

Definition world : World := {| random := fun _ => 1 # 2; drawn := 0; trace := [] |}.

End Sample.

(** ** The run of a relay, step by step *)

(** What [relay] does once the signer is there and the service node [n]
    is resolved in the world [w1]. *)
Definition relay_from (a : Relayer.RelayArgs) (signer : KeyManager)
    (provider : JsonRpcProvider) (n : Node) (w1 : World)
  : (exception + RelayResponse) * World :=
  let r := random w1 (drawn w1) in
  let e := Relayer.entropy r in
  let bytes := Relayer.proofBytes a e (publicKey n) in
  let digest := Relayer.hashRequest (Relayer.requestHash a) in
  let after events :=
    {| random := random w1; drawn := S (drawn w1); trace := trace w1 ++ events |} in
  if Relayer.isNodeInSession (Relayer.session a) n then
    match sign signer bytes with
    | inl failure => (inl failure, after [Random r; Hashed bytes; Signed bytes])
    | inr signature =>
        let request :=
          Relayer.relayRequest a (Relayer.relayProof a e (publicKey n) signature digest) in
        let events :=
          [Random r; Hashed bytes; Signed bytes; Hashed digest; Sent request (serviceUrl n)] in
        match provider_relay provider request (serviceUrl n) with
        | inl failure => (inl failure, after events)
        | inr raw => (validateRelayResponse raw, after events)
        end
    end
  else (inl NodeNotInSessionError, w1).

(** ** More of what a trace shows, and more calls *)

(** The outcomes of [Math.random()] in a trace. *)
Definition draws (t : list event) : list Q :=
  flat_map (fun e => match e with Random r => [r] | _ => [] end) t.

Module Cases.

(** A session with one node. *)
Definition lonely : Session :=
  {| header := Sample.sessionHeader; nodes := [Sample.nodeA] |}.

(** A signer that rejects. *)
Definition locked : KeyManager := {|
  sign := fun _ => inl (Error "locked");
  getPublicKey := "c1f0"
|}.

(** A provider whose transport fails. *)
Definition unreachable : JsonRpcProvider := {|
  provider_relay := fun _ _ => inl (Error "ECONNREFUSED")
|}.

(** A world whose draws are 0, 1/4, 2/4, 3/4, 0, ... *)
Definition turning : World :=
  {| random := fun i => Z.of_nat (i mod 4) # 4; drawn := 0; trace := [] |}.

(** A session of a hundred and one nodes, with the keys n0, n1, ... *)
Definition crowd : Session :=
  {| header := Sample.sessionHeader;
     nodes := map (fun i => {| publicKey := "n" ++ Js.decimal (Z.of_nat i);
                               serviceUrl := "https://n.example:443" |})
                  (seq 0 101) |}.

(** A world whose every draw is the outcome [r]. *)
Definition steady (r : Q) : World := {| random := fun _ => r; drawn := 0; trace := [] |}.

End Cases.

(** ** Reading a serialised text back *)

(** What [JSON.stringify] keeps of a number: its value when it is finite,
    and [null] otherwise. *)
Definition finite (n : Js.number) : option Z :=
  match n with
  | Js.Int z => Some z
  | _ => None
  end.

(** The argument of [relay] with another block height in the header of
    its session. *)
Definition with_height (a : Relayer.RelayArgs) (height : numeric) : Relayer.RelayArgs := {|
  Relayer.blockchain := Relayer.blockchain a;
  Relayer.data := Relayer.data a;
  Relayer.headers := Relayer.headers a;
  Relayer.method := Relayer.method a;
  Relayer.node := Relayer.node a;
  Relayer.path := Relayer.path a;
  Relayer.pocketAAT := Relayer.pocketAAT a;
  Relayer.session := {|
    header := {|
      applicationPubKey := applicationPubKey (header (Relayer.session a));
      chain := chain (header (Relayer.session a));
      sessionBlockHeight := height
    |};
    nodes := nodes (Relayer.session a)
  |}
|}.

(** The text that [hashAAT] hashes. *)
Definition token_text (aat : PocketAAT) : string :=
  Js.stringify (Js.Obj [
    ("version", Js.Str (version aat));
    ("app_pub_key", Js.Str (applicationPublicKey aat));
    ("client_pub_key", Js.Str (clientPublicKey aat));
    ("signature", Js.Str EmptyString)
  ]).

(** The value of a lowercase hexadecimal digit. *)
Definition hex_value (c : ascii) : option N :=
  let n := N_of_ascii c in
  if ((48 <=? n) && (n <=? 57))%N then Some (n - 48)%N
  else if ((97 <=? n) && (n <=? 102))%N then Some (n - 87)%N
  else None.

(** One character of a quoted string, read back from its escaped form,
    and what follows it; nothing at the closing quote. *)
Definition unescape (s : string) : option (ascii * string) :=
  match s with
  | EmptyString => None
  | String c rest =>
      if Ascii.eqb c Js.double_quote then None
      else if Ascii.eqb c Js.backslash then
        match rest with
        | EmptyString => None
        | String e rest' =>
            if Ascii.eqb e "b" then Some (ascii_of_nat 8, rest')
            else if Ascii.eqb e "t" then Some (ascii_of_nat 9, rest')
            else if Ascii.eqb e "n" then Some (ascii_of_nat 10, rest')
            else if Ascii.eqb e "f" then Some (ascii_of_nat 12, rest')
            else if Ascii.eqb e "r" then Some (ascii_of_nat 13, rest')
            else if Ascii.eqb e Js.double_quote then Some (Js.double_quote, rest')
            else if Ascii.eqb e Js.backslash then Some (Js.backslash, rest')
            else if Ascii.eqb e "u" then
              match rest' with
              | String _ (String _ (String h (String l rest''))) =>
                  match hex_value h, hex_value l with
                  | Some a, Some b => Some (ascii_of_N (16 * a + b), rest'')
                  | _, _ => None
                  end
              | _ => None
              end
            else None
        end
      else Some (c, rest)
  end.

(** The members of a serialised headers object. *)
Fixpoint header_members (fields : list (string * string)) : string :=
  match fields with
  | [] => EmptyString
  | (k, v) :: rest =>
      Js.quote k ++ ":" ++ Js.quote v ++
      match rest with
      | [] => EmptyString
      | _ => "," ++ header_members rest
      end
  end.

(** * Properties *)

(** ** The digest *)

Example sha3_empty :
  Sha3.sha3_256 EmptyString =
  "a7ffc6f8bf1ed76651c14756a061d662f580ff4de43b49fa82d80a4b80f8434a".
Proof. vm_compute. reflexivity. Qed.

Example sha3_abc :
  Sha3.sha3_256 "abc" =
  "3a985da74fe225b2045c172d6bd390bd855f086e3e9d525b46bfe24511431532".
Proof. vm_compute. reflexivity. Qed.

(** One byte short of a block, a full block and one byte more. *)
Example sha3_block_boundary :
  let a n := string_of_list_ascii (repeat "a"%char n) in
  Sha3.sha3_256 (a 135%nat) =
    "8094bb53c44cfb1e67b7c30447f9a1c33696d2463ecc1d9c92538913392843c9" /\
  Sha3.sha3_256 (a 136%nat) =
    "3fc5559f14db8e453a0a3091edbd2bc25e11528d81c66fa570a4efdcc2695ee1" /\
  Sha3.sha3_256 (a 137%nat) =
    "f8d6846cedd2ccfadf15c5879ef95af724d799eed7391fb1c91f95344e738614".
Proof. vm_compute. repeat split. Qed.

Section DigestShape.

Import Sha3.

Lemma round_length st rc : List.length (round st rc) = 25%nat.
Proof.
  unfold round, iota, chi.
  destruct (map _ (seq 0 25)) eqn:E.
  - discriminate E.
  - change (List.length (N.lxor n rc :: l)) with (List.length (n :: l)).
    rewrite <- E. now rewrite length_map, length_seq.
Qed.

Lemma rounds_length rcs : forall st,
  List.length st = 25%nat \/ rcs <> [] ->
  List.length (fold_left round rcs st) = 25%nat.
Proof.
  induction rcs as [|rc rcs IH]; intros st [H|H]; simpl; try easy.
  - apply IH. left. apply round_length.
  - apply IH. left. apply round_length.
Qed.

Lemma keccak_f_length st : List.length (keccak_f st) = 25%nat.
Proof. apply rounds_length. right. discriminate. Qed.

Lemma absorb_length blocks : forall st bs,
  List.length st = 25%nat -> List.length (absorb blocks st bs) = 25%nat.
Proof.
  induction blocks as [|k IH]; intros st bs H; simpl; [exact H|].
  apply IH, keccak_f_length.
Qed.

Lemma bytes_of_lane_length n : forall l, List.length (bytes_of_lane n l) = n.
Proof. induction n; intros l; simpl; [reflexivity | now rewrite IHn]. Qed.

Lemma bytes_of_lane_bound n : forall l, Forall (fun b => (b < 256)%N) (bytes_of_lane n l).
Proof.
  induction n; intros l; simpl; constructor.
  - apply N.mod_lt. discriminate.
  - apply IHn.
Qed.

Lemma digest_length msg : List.length (digest msg) = 32%nat.
Proof.
  unfold digest.
  set (st := absorb _ _ _).
  assert (L : List.length st = 25%nat) by (apply absorb_length, repeat_length).
  assert (F : forall ls, List.length (flat_map (bytes_of_lane 8) ls) = (8 * List.length ls)%nat).
  { induction ls as [|l ls IH]; [reflexivity|].
    cbn [flat_map]. rewrite length_app, bytes_of_lane_length, IH. simpl. lia. }
  rewrite F, length_firstn, L. reflexivity.
Qed.

Lemma digest_bound msg : Forall (fun b => (b < 256)%N) (digest msg).
Proof.
  unfold digest. apply Forall_flat_map, Forall_forall.
  intros l _. apply bytes_of_lane_bound.
Qed.

Lemma hex_length bs : String.length (hex bs) = (2 * List.length bs)%nat.
Proof. induction bs; simpl; [reflexivity | rewrite IHbs; lia]. Qed.

Lemma hex_digit_lowercase n :
  (n < 16)%N ->
  existsb (Ascii.eqb (hex_digit n)) (list_ascii_of_string "0123456789abcdef") = true.
Proof.
  intros H.
  assert (A : forallb (fun k => existsb (Ascii.eqb (hex_digit (N.of_nat k)))
                                        (list_ascii_of_string "0123456789abcdef"))
                      (seq 0 16) = true) by reflexivity.
  rewrite forallb_forall in A. specialize (A (N.to_nat n)).
  rewrite N2Nat.id in A. apply A, in_seq. lia.
Qed.

Lemma hex_lowercase bs :
  Forall (fun b => (b < 256)%N) bs -> lowercase_hex (hex bs) = true.
Proof.
  unfold lowercase_hex.
  pose proof hex_digit_lowercase as D.
  remember (list_ascii_of_string "0123456789abcdef") as alphabet.
  induction 1 as [|b bs Hb _ IH]; [reflexivity|].
  cbn [hex list_ascii_of_string forallb].
  rewrite IH, !D; [reflexivity | |].
  - apply N.mod_lt. discriminate.
  - apply N.Div0.div_lt_upper_bound. exact Hb.
Qed.

(** A digest is 64 lowercase hexadecimal digits: 256 bits. *)
Lemma sha3_256_shape s :
  String.length (sha3_256 s) = 64%nat /\ lowercase_hex (sha3_256 s) = true.
Proof.
  unfold sha3_256. split.
  - now rewrite hex_length, digest_length.
  - apply hex_lowercase, digest_bound.
Qed.

End DigestShape.

(** ** Numbers and their decimal form *)

Section Decimal.

Import Js.
Local Open Scope Z_scope.

Lemma digits_step radix c k acc rest :
  digit_value c = Some k -> (k <? radix) = true ->
  digits radix acc (String c rest) = digits radix (radix * acc + k) rest.
Proof. intros D L. cbn [digits]. now rewrite D, L. Qed.

Ltac digit_step :=
  match goal with
  | |- digits ?radix ?acc (String ?c ?rest) = _ =>
      let k := eval vm_compute in (digit_value c) in
      match k with
      | Some ?v => rewrite (digits_step radix c v acc rest eq_refl eq_refl)
      end
  end.

Lemma digits_of_uint_acc d : forall acc,
  digits 10 (Z.pos acc) (NilEmpty.string_of_uint d) = Some (Z.pos (Pos.of_uint_acc d acc)).
Proof.
  induction d; intros acc; cbn [NilEmpty.string_of_uint Pos.of_uint_acc];
    [reflexivity | ..];
    digit_step;
    match goal with
    | |- digits 10 ?x _ = Some (Z.pos (Pos.of_uint_acc _ ?y)) =>
        replace x with (Z.pos y) by lia
    end; apply IHd.
Qed.

Lemma digits_of_uint d :
  digits 10 0 (NilEmpty.string_of_uint d) = Some (Z.of_uint d).
Proof.
  unfold Z.of_uint.
  induction d; cbn [NilEmpty.string_of_uint Pos.of_uint]; [reflexivity | ..];
    digit_step; [exact IHd | ..];
    apply digits_of_uint_acc.
Qed.

Lemma trim_start_uint d :
  trim_start (NilEmpty.string_of_uint d) = NilEmpty.string_of_uint d.
Proof. destruct d; reflexivity. Qed.

Lemma trim_end_uint d :
  trim_end (NilEmpty.string_of_uint d) = NilEmpty.string_of_uint d.
Proof.
  induction d; cbn [NilEmpty.string_of_uint trim_end]; [reflexivity | ..];
    rewrite IHd; destruct (NilEmpty.string_of_uint d); reflexivity.
Qed.

Lemma StringToNumber_uint d :
  d <> Decimal.Nil ->
  StringToNumber (NilEmpty.string_of_uint d) = Int (Z.of_uint d).
Proof.
  intros Hd.
  assert (E : StringToNumber (NilEmpty.string_of_uint d) =
              match digits 10 0 (NilEmpty.string_of_uint d) with
              | Some z => Int z
              | None => NaN
              end).
  { unfold StringToNumber, trim. rewrite trim_start_uint, trim_end_uint.
    destruct d as [|d|d|d|d|d|d|d|d|d|d]; [contradiction | ..];
      destruct d; cbn [NilEmpty.string_of_uint];
      try reflexivity;
      unfold unsigned_decimal, integer_literal, non_decimal;
      cbn [Ascii.eqb Bool.eqb orb String.eqb];
      match goal with |- context [digits 10 0 ?s] => destruct (digits 10 0 s) end;
      reflexivity. }
  rewrite E, digits_of_uint. reflexivity.
Qed.

Lemma trim_minus s : trim_end s = s -> trim (String "-" s) = String "-" s.
Proof.
  intros E. unfold trim.
  change (trim_start (String "-" s)) with (String "-" s).
  cbn [trim_end]. rewrite E. now destruct s.
Qed.

Lemma StringToNumber_negative d :
  d <> Decimal.Nil ->
  StringToNumber (String "-" (NilEmpty.string_of_uint d)) = Int (- Z.of_uint d).
Proof.
  intros Hd.
  unfold StringToNumber. rewrite trim_minus by apply trim_end_uint.
  change (Ascii.eqb "-" "+") with false. change (Ascii.eqb "-" "-") with true.
  cbv iota. unfold unsigned_decimal, integer_literal.
  assert (I : String.eqb (NilEmpty.string_of_uint d) "Infinity" = false)
    by (destruct d; reflexivity).
  rewrite I, digits_of_uint. now destruct d.
Qed.

Lemma nil_zero_string p :
  NilZero.string_of_uint (Pos.to_uint p) = NilEmpty.string_of_uint (Pos.to_uint p).
Proof.
  pose proof (DecimalPos.Unsigned.to_uint_nonnil p).
  now destruct (Pos.to_uint p).
Qed.

(** [Number(n.toString())] is [n]. *)
Lemma Number_toString_inverse n : Number (Number_toString n) = n.
Proof.
  destruct n as [z| |[|]]; try reflexivity.
  unfold Number, Number_toString, decimal.
  destruct z as [|p|p]; [reflexivity | |]; cbn [Z.to_int NilZero.string_of_int];
    rewrite nil_zero_string.
  - rewrite StringToNumber_uint by apply DecimalPos.Unsigned.to_uint_nonnil.
    unfold Z.of_uint. now rewrite DecimalPos.Unsigned.of_to.
  - rewrite StringToNumber_negative by apply DecimalPos.Unsigned.to_uint_nonnil.
    unfold Z.of_uint. now rewrite DecimalPos.Unsigned.of_to.
Qed.

Lemma decimal_inj z1 z2 : decimal z1 = decimal z2 -> z1 = z2.
Proof.
  intros E.
  pose proof (Number_toString_inverse (Int z1)) as H1.
  pose proof (Number_toString_inverse (Int z2)) as H2.
  cbn [Number_toString] in H1, H2. rewrite E, H2 in H1. now injection H1.
Qed.

(** A decimal form is never the literal [null]. *)
Lemma decimal_not_null z : decimal z <> "null".
Proof.
  intros E.
  pose proof (Number_toString_inverse (Int z)) as H.
  cbn [Number_toString] in H. rewrite E in H. discriminate H.
Qed.

End Decimal.

(** ** Strings *)

Section Strings.

Lemma list_ascii_app a b :
  list_ascii_of_string (a ++ b) = (list_ascii_of_string a ++ list_ascii_of_string b)%list.
Proof. induction a; simpl; [reflexivity | now rewrite IHa]. Qed.

Lemma list_ascii_inj a b : list_ascii_of_string a = list_ascii_of_string b -> a = b.
Proof.
  intros E. rewrite <- (string_of_list_ascii_of_string a), E.
  apply string_of_list_ascii_of_string.
Qed.

Lemma append_assoc a b c : (a ++ b) ++ c = a ++ (b ++ c).
Proof. induction a; simpl; [reflexivity | now rewrite IHa]. Qed.

Lemma append_inv_head s a b : s ++ a = s ++ b -> a = b.
Proof. induction s; simpl; intros E; [exact E | injection E; auto]. Qed.

Lemma append_inv_tail a b s : a ++ s = b ++ s -> a = b.
Proof.
  intros E. apply list_ascii_inj.
  apply (f_equal list_ascii_of_string) in E. rewrite !list_ascii_app in E.
  now apply app_inv_tail in E.
Qed.

End Strings.

(** ** The hashing helpers *)

(** The text that [generateProofBytes] hashes, key by key. *)
Lemma proofJSON_text entropy height servicer chain aat requestHash :
  Relayer.proofJSONStr entropy height servicer chain aat requestHash =
  "{" ++ Js.quote "entropy" ++ ":" ++
         Js.stringify (Js.Num (Js.Number (toString entropy))) ++ "," ++
         Js.quote "session_block_height" ++ ":" ++
         Js.stringify (Js.Num (Js.Number (toString height))) ++ "," ++
         Js.quote "servicer_pub_key" ++ ":" ++ Js.quote servicer ++ "," ++
         Js.quote "blockchain" ++ ":" ++ Js.quote chain ++ "," ++
         Js.quote "signature" ++ ":" ++ Js.quote EmptyString ++ "," ++
         Js.quote "token" ++ ":" ++ Js.quote (Relayer.hashAAT aat) ++ "," ++
         Js.quote "request_hash" ++ ":" ++ Js.quote (Relayer.hashRequest requestHash) ++
  "}".
Proof.
  unfold Relayer.proofJSONStr, Relayer.proofJSON. cbn [Js.stringify].
  rewrite !append_assoc. reflexivity.
Qed.




(** The text of the sample request hash, key by key. *)
Example hashRequest_sample :
  Relayer.hashRequest (Relayer.requestHash (Sample.args Sample.session None)) =
    Sha3.sha3_256
      ("{" ++ Js.quote "payload" ++ ":{" ++
         Js.quote "data" ++ ":" ++ Js.quote "{}" ++ "," ++
         Js.quote "method" ++ ":" ++ Js.quote "POST" ++ "," ++
         Js.quote "path" ++ ":" ++ Js.quote "/v1" ++ "," ++
         Js.quote "headers" ++ ":null}," ++
         Js.quote "meta" ++ ":{" ++ Js.quote "block_height" ++ ":4321}}").
Proof. vm_compute. reflexivity. Qed.

(** C8. For every AAT, [hashAAT] returns the canonical digest of
    version, app_pub_key, client_pub_key and an empty signature; the AAT's
    own signature is left out, so two AATs that differ only in their
    application signature have the same digest. *)
Theorem hashAAT_excludes_signature
    (v client app signature1 signature2 : string) :
  let aat s := {| version := v; clientPublicKey := client;
                  applicationPublicKey := app; applicationSignature := s |} in
  Relayer.hashAAT (aat signature1) = Spec.hashAAT (aat signature1) /\
  Relayer.hashAAT (aat signature1) =
    Sha3.sha3_256 ("{" ++ Js.quote "version" ++ ":" ++ Js.quote v ++ "," ++
                          Js.quote "app_pub_key" ++ ":" ++ Js.quote app ++ "," ++
                          Js.quote "client_pub_key" ++ ":" ++ Js.quote client ++ "," ++
                          Js.quote "signature" ++ ":" ++ Js.quote EmptyString ++ "}") /\
  Relayer.hashAAT (aat signature1) = Relayer.hashAAT (aat signature2).
Proof.
  repeat split.
  unfold Relayer.hashAAT. cbn [Js.stringify version applicationPublicKey clientPublicKey].
  rewrite !append_assoc. reflexivity.
Qed.

(** ** Entropy and the digest *)

(** Entropies that differ and proof bytes that do not: [NaN] and
    [Infinity] are both serialised as [null]. *)
Lemma entropy_collision : ~ Spec.entropy_changes_digest.
Proof.
  intros H.
  apply (H (OfNumber Js.NaN) (OfNumber (Js.Infinity false))
           (OfNumber (Js.Int 4321)) "aa01" "0021" Sample.aat
           (Js.Obj [("payload", Js.Null); ("meta", Js.Null)])).
  - discriminate.
  - reflexivity.
Qed.

(** The number 7 and the string of the digit 7 denote one entropy. *)
Example entropy_number_or_string :
  Relayer.generateProofBytes (OfNumber (Js.Int 7)) (OfNumber (Js.Int 4321))
                             "aa01" "0021" Sample.aat Js.Null =
  Relayer.generateProofBytes (OfString "7") (OfNumber (Js.Int 4321))
                             "aa01" "0021" Sample.aat Js.Null.
Proof. reflexivity. Qed.

(** C9, amended. The proof bytes are a function of the number the entropy
    denotes: they are the proof bytes of that number. When two entropies
    denote distinct integers below 2^53 in magnitude and everything else
    is the same, the two serialised proof objects differ, and so do the
    digests unless SHA3-256 collides on these two texts. *)
Theorem generateProofBytes_entropy
    (e1 e2 height : numeric) (z1 z2 : Z) (servicer chain : string)
    (aat : PocketAAT) (requestHash : Js.value) :
  Js.Number (toString e1) = Js.Int z1 ->
  Js.Number (toString e2) = Js.Int z2 ->
  (Z.abs z1 < 2 ^ 53)%Z ->
  (Z.abs z2 < 2 ^ 53)%Z ->
  z1 <> z2 ->
  (Sha3.sha3_256 (Relayer.proofJSONStr e1 height servicer chain aat requestHash) =
   Sha3.sha3_256 (Relayer.proofJSONStr e2 height servicer chain aat requestHash) ->
   Relayer.proofJSONStr e1 height servicer chain aat requestHash =
   Relayer.proofJSONStr e2 height servicer chain aat requestHash) ->
  Relayer.generateProofBytes e1 height servicer chain aat requestHash =
    Relayer.generateProofBytes (OfNumber (Js.Int z1)) height servicer chain aat requestHash /\
  Relayer.generateProofBytes e2 height servicer chain aat requestHash =
    Relayer.generateProofBytes (OfNumber (Js.Int z2)) height servicer chain aat requestHash /\
  Relayer.proofJSONStr e1 height servicer chain aat requestHash <>
    Relayer.proofJSONStr e2 height servicer chain aat requestHash /\
  Relayer.generateProofBytes e1 height servicer chain aat requestHash <>
    Relayer.generateProofBytes e2 height servicer chain aat requestHash.
Proof.
  intros E1 E2 _ _ D collision_free.
  assert (T : Relayer.proofJSONStr e1 height servicer chain aat requestHash <>
              Relayer.proofJSONStr e2 height servicer chain aat requestHash).
  { rewrite !proofJSON_text, E1, E2. cbn [Js.stringify].
    intros E. do 3 apply append_inv_head in E.
    apply append_inv_tail, decimal_inj in E. contradiction. }
  repeat split.
  - unfold Relayer.generateProofBytes, Relayer.proofJSONStr, Relayer.proofJSON.
    cbn [toString]. now rewrite E1, (Number_toString_inverse (Js.Int z1)).
  - unfold Relayer.generateProofBytes, Relayer.proofJSONStr, Relayer.proofJSON.
    cbn [toString]. now rewrite E2, (Number_toString_inverse (Js.Int z2)).
  - exact T.
  - intros E. apply T, collision_free, E.
Qed.

Lemma generateProofBytes_entropy_witness :
  Relayer.generateProofBytes (OfBigInt 1) (OfNumber (Js.Int 4321)) "aa01" "0021"
                             Sample.aat Js.Null =
    Relayer.generateProofBytes (OfNumber (Js.Int 1)) (OfNumber (Js.Int 4321)) "aa01" "0021"
                               Sample.aat Js.Null /\
  Relayer.generateProofBytes (OfString " 2") (OfNumber (Js.Int 4321)) "aa01" "0021"
                             Sample.aat Js.Null =
    Relayer.generateProofBytes (OfNumber (Js.Int 2)) (OfNumber (Js.Int 4321)) "aa01" "0021"
                               Sample.aat Js.Null /\
  Relayer.proofJSONStr (OfBigInt 1) (OfNumber (Js.Int 4321)) "aa01" "0021"
                       Sample.aat Js.Null <>
    Relayer.proofJSONStr (OfString " 2") (OfNumber (Js.Int 4321)) "aa01" "0021"
                         Sample.aat Js.Null /\
  Relayer.generateProofBytes (OfBigInt 1) (OfNumber (Js.Int 4321)) "aa01" "0021"
                             Sample.aat Js.Null <>
    Relayer.generateProofBytes (OfString " 2") (OfNumber (Js.Int 4321)) "aa01" "0021"
                               Sample.aat Js.Null.
Proof.
  apply (generateProofBytes_entropy (OfBigInt 1) (OfString " 2") (OfNumber (Js.Int 4321))
                                    1 2 "aa01" "0021" Sample.aat Js.Null).
  - reflexivity.
  - reflexivity.
  - reflexivity.
  - reflexivity.
  - discriminate.
  - intros H. vm_compute in H. discriminate H.
Defined.

(** The digest of the sample AAT, whatever its signature. *)
Example hashAAT_sample :
  Relayer.hashAAT Sample.aat =
    "d82afa66629ddfd12b9e603c78c7bd46611dd6d10f8e1130fbcff94193db78e2" /\
  Relayer.hashAAT {| version := "0.0.1"; clientPublicKey := "c1f0";
                     applicationPublicKey := "a1f0"; applicationSignature := "0000" |} =
    "d82afa66629ddfd12b9e603c78c7bd46611dd6d10f8e1130fbcff94193db78e2".
Proof. vm_compute. split; reflexivity. Qed.

(** ** Session membership *)

(** [isNodeInSession] holds exactly when the node's public key is among
    the public keys of the session's nodes. *)
Lemma isNodeInSession_spec session node :
  Relayer.isNodeInSession session node = true <->
  In (publicKey node) (map publicKey (nodes session)).
Proof.
  unfold Relayer.isNodeInSession.
  induction (nodes session) as [|n ns IH]; cbn [find map In].
  - split; [discriminate | contradiction].
  - destruct (String.eqb_spec (publicKey n) (publicKey node)) as [E|E].
    + split; auto.
    + rewrite IH. split; [auto | intros [F|F]; [contradiction | exact F]].
Qed.

Lemma isNodeInSession_false session node :
  ~ In (publicKey node) (map publicKey (nodes session)) ->
  Relayer.isNodeInSession session node = false.
Proof.
  intros H. destruct (Relayer.isNodeInSession session node) eqn:E; [|reflexivity].
  apply isNodeInSession_spec in E. contradiction.
Qed.

(** ** Doubles and their products *)

Section Doubles.

Local Open Scope Q_scope.

Lemma nearest_even_floor q : (Qfloor q <= Js.nearest_even q)%Z.
Proof.
  unfold Js.nearest_even.
  destruct (q - inject_Z (Qfloor q) ?= 1 # 2); [destruct (Z.even _)|..]; lia.
Qed.

(** Rounding to an integer adds a half at most. *)
Lemma nearest_even_upper q : inject_Z (Js.nearest_even q) <= q + (1 # 2).
Proof.
  unfold Js.nearest_even.
  pose proof (Qfloor_le q) as L.
  destruct (q - inject_Z (Qfloor q) ?= 1 # 2) eqn:E.
  - apply Qeq_alt in E. destruct (Z.even _); [lra|].
    rewrite inject_Z_plus. change (inject_Z 1) with 1. lra.
  - lra.
  - apply Qgt_alt in E. rewrite inject_Z_plus. change (inject_Z 1) with 1. lra.
Qed.

Lemma pow2_pos e : 0 < 2 ^ e.
Proof. apply Qpower_0_lt. reflexivity. Qed.

Lemma pow2_succ e : 2 ^ (e + 1) == 2 * 2 ^ e.
Proof. rewrite Qpower_plus by discriminate. simpl (2 ^ 1). lra. Qed.

Lemma pow2_pred e : 2 ^ (e - 1) == 2 ^ e / 2.
Proof.
  replace e with (e - 1 + 1)%Z at 2 by lia. rewrite pow2_succ. field.
Qed.

Lemma pow2_nat a : (0 <= a)%Z -> inject_Z (2 ^ a) == 2 ^ a.
Proof. intros H. rewrite Zpower_Qpower by exact H. reflexivity. Qed.

Lemma pow2_mono a b : (a <= b)%Z -> 2 ^ a <= 2 ^ b.
Proof.
  intros H. replace b with (a + (b - a))%Z by lia.
  rewrite Qpower_plus by discriminate.
  assert (1 <= 2 ^ (b - a)) by (apply Qpower_1_le; [lra | lia]).
  pose proof (pow2_pos a). nra.
Qed.

(** A positive rational lies in the binade of its exponent. *)
Lemma binade_spec q : 0 < q -> 2 ^ Js.binade q <= q /\ q < 2 ^ (Js.binade q + 1).
Proof.
  intros Hq. unfold Js.binade.
  set (a := Z.log2 (Qnum q)). set (b := Z.log2 (Z.pos (Qden q))).
  assert (Hn : (0 < Qnum q)%Z).
  { destruct q as [n d]. unfold Qlt in Hq. simpl in *. lia. }
  destruct (Z.log2_spec (Qnum q) Hn) as [A1 A2].
  destruct (Z.log2_spec (Z.pos (Qden q)) (Pos2Z.is_pos _)) as [B1 B2].
  fold a in A1, A2. fold b in B1, B2.
  assert (Ha : (0 <= a)%Z) by apply Z.log2_nonneg.
  assert (Hb : (0 <= b)%Z) by apply Z.log2_nonneg.
  assert (Eq : q == inject_Z (Qnum q) / inject_Z (Z.pos (Qden q))).
  { destruct q as [n d]. simpl. rewrite (Qmake_Qdiv n d). reflexivity. }
  assert (Dpos : 0 < inject_Z (Z.pos (Qden q))) by reflexivity.
  rewrite Zle_Qle, pow2_nat in A1, B1 by assumption.
  unfold Z.succ in A2, B2.
  rewrite Zlt_Qlt, pow2_nat in A2, B2 by lia.
  rewrite pow2_succ in A2, B2.
  pose proof (pow2_pos a) as Pa. pose proof (pow2_pos b) as Pb.
  assert (Eab : 2 ^ (a - b) == 2 ^ a / 2 ^ b) by (apply Qpower_minus; discriminate).
  assert (Up : q < 2 * 2 ^ (a - b)).
  { rewrite Eab, Eq.
    apply Qlt_shift_div_r; [exact Dpos|].
    setoid_replace (2 * (2 ^ a / 2 ^ b) * inject_Z (Z.pos (Qden q)))
      with (2 * 2 ^ a * (inject_Z (Z.pos (Qden q)) / 2 ^ b)) by (field; lra).
    assert (1 <= inject_Z (Z.pos (Qden q)) / 2 ^ b)
      by (apply Qle_shift_div_l; [exact Pb | lra]).
    nra. }
  assert (Lo : 2 ^ (a - b) / 2 <= q).
  { rewrite Eab, Eq.
    apply Qle_shift_div_l; [exact Dpos|].
    setoid_replace (2 ^ a / 2 ^ b / 2 * inject_Z (Z.pos (Qden q)))
      with (2 ^ a * (inject_Z (Z.pos (Qden q)) / (2 * 2 ^ b))) by (field; lra).
    assert (inject_Z (Z.pos (Qden q)) / (2 * 2 ^ b) <= 1)
      by (apply Qle_shift_div_r; lra).
    nra. }
  destruct (Qle_bool (2 ^ (a - b)) q) eqn:E.
  - apply Qle_bool_iff in E. rewrite pow2_succ. split; [exact E | exact Up].
  - assert (N : ~ 2 ^ (a - b) <= q).
    { intros C. apply Qle_bool_iff in C. congruence. }
    apply Qnot_le_lt in N.
    replace (a - b - 1 + 1)%Z with (a - b)%Z by lia.
    rewrite pow2_pred. split; [exact Lo | exact N].
Qed.

Lemma Qabs_positive q : 0 < q -> Qabs q = q.
Proof.
  destruct q as [[|p|p] d]; intros H; try reflexivity; unfold Qlt in H; simpl in H; lia.
Qed.

Lemma round53_nonneg q : 0 <= q -> 0 <= Js.round53 q.
Proof.
  intros H. unfold Js.round53.
  destruct (Qeq_bool q 0); [lra|].
  assert (L : Qle_bool 0 q = true) by (apply Qle_bool_iff; exact H).
  rewrite L.
  set (e := Js.last_place (Qabs q)).
  pose proof (pow2_pos e) as P.
  assert (A : 0 <= Qabs q / 2 ^ e).
  { apply Qle_shift_div_l; [exact P|]. pose proof (Qabs_nonneg q). lra. }
  pose proof (nearest_even_floor (Qabs q / 2 ^ e)) as F.
  apply (Qfloor_resp_le 0) in A.
  assert (0 <= inject_Z (Js.nearest_even (Qabs q / 2 ^ e))).
  { change 0 with (inject_Z 0). rewrite <- Zle_Qle. change (Qfloor 0) with 0%Z in A. lia. }
  nra.
Qed.

(** Rounding to a double adds half a unit of the last place at most. *)
Lemma round53_upper q : 0 < q -> Js.round53 q <= q + 2 ^ (Js.last_place q - 1).
Proof.
  intros H. unfold Js.round53.
  destruct (Qeq_bool q 0) eqn:Z0.
  { apply Qeq_bool_iff in Z0. lra. }
  assert (L : Qle_bool 0 q = true) by (apply Qle_bool_iff; lra).
  rewrite L, (Qabs_positive q H).
  set (e := Js.last_place q). rewrite pow2_pred.
  pose proof (pow2_pos e) as P.
  pose proof (nearest_even_upper (q / 2 ^ e)) as U.
  set (m := inject_Z (Js.nearest_even (q / 2 ^ e))) in *.
  assert (M : m * 2 ^ e <= (q / 2 ^ e + (1 # 2)) * 2 ^ e) by nra.
  setoid_replace ((q / 2 ^ e + (1 # 2)) * 2 ^ e) with (q + 2 ^ e / 2) in M
    by (field; lra).
  lra.
Qed.

(** Half a unit of the last place of a positive rational below [c], for
    [c] at least one, is below [c / 2^53]. *)
Lemma half_last_place q c :
  0 < q -> q < c -> 1 <= c -> 2 ^ (Js.last_place q - 1) < c * (1 # 9007199254740992).
Proof.
  intros P U C. unfold Js.last_place.
  destruct (binade_spec q P) as [B _].
  destruct (Z.max_spec (Js.binade q - 52) (-1074)) as [[_ ->] | [_ ->]].
  - assert (K : 2 ^ (-1074 - 1) < 1 # 9007199254740992) by reflexivity.
    nra.
  - replace (Js.binade q - 52 - 1)%Z with (Js.binade q + (-53))%Z by lia.
    rewrite Qpower_plus by discriminate.
    assert (K : 2 ^ (-53) == 1 # 9007199254740992) by reflexivity.
    rewrite K. pose proof (pow2_pos (Js.binade q)). nra.
Qed.

(** A double below one is at most the last double below one. *)
Lemma double_below_one r : Js.double r -> 0 <= r -> r < 1 -> r <= 1 - 2 ^ (-53).
Proof.
  intros [D _] L U.
  destruct (Qeq_bool r 0) eqn:Z0.
  { apply Qeq_bool_iff in Z0. rewrite Z0. vm_compute. discriminate. }
  assert (P : 0 < r) by (apply Qeq_bool_neq in Z0; lra).
  destruct (binade_spec r P) as [B1 B2].
  assert (B : (Js.binade r <= -1)%Z).
  { destruct (Z_le_gt_dec (Js.binade r) (-1)) as [|G]; [assumption|].
    pose proof (pow2_mono 0 (Js.binade r) ltac:(lia)) as M.
    change (2 ^ 0) with 1 in M. lra. }
  destruct (Z.eq_dec (Js.binade r) (-1)) as [E|N].
  - unfold Js.round53, Js.last_place in D. rewrite Z0, (Qabs_positive r P), E in D.
    assert (L' : Qle_bool 0 r = true) by (apply Qle_bool_iff; exact L).
    rewrite L' in D. change (Z.max (-1 - 52) (-1074)) with (-53)%Z in D.
    set (m := Js.nearest_even (r / 2 ^ (-53))) in *.
    assert (C : 2 ^ (-53) == 1 # 9007199254740992) by reflexivity.
    rewrite C in D |- *.
    assert (Hm : (m < 9007199254740992)%Z).
    { rewrite Zlt_Qlt. change (inject_Z 9007199254740992) with 9007199254740992. lra. }
    assert (Hm' : (m <= 9007199254740991)%Z) by lia.
    rewrite Zle_Qle in Hm'. change (inject_Z 9007199254740991) with 9007199254740991 in Hm'.
    lra.
  - assert (B' : (Js.binade r + 1 <= -1)%Z) by lia.
    pose proof (pow2_mono _ _ B') as M.
    assert (r < 2 ^ (-1)) by lra.
    assert (2 ^ (-1) <= 1 - 2 ^ (-53)) by (vm_compute; discriminate).
    lra.
Qed.

(** The product of a double below one and a factor of one or more, once
    rounded, is still below the factor. *)
Lemma times_below r c : Js.double r -> 0 <= r -> r < 1 -> 1 <= c -> Js.times r c < c.
Proof.
  intros D L U C. unfold Js.times.
  destruct (Qeq_bool r 0) eqn:Z0.
  { apply Qeq_bool_iff in Z0.
    assert (E : r * c == 0) by (rewrite Z0; ring).
    unfold Js.round53. apply Qeq_bool_iff in E. rewrite E. lra. }
  assert (P : 0 < r) by (apply Qeq_bool_neq in Z0; lra).
  assert (X : 0 < r * c) by nra.
  assert (X' : r * c < c) by nra.
  pose proof (double_below_one r D L U) as R.
  pose proof (round53_upper _ X) as V.
  pose proof (half_last_place _ _ X X' C) as H.
  assert (K : 2 ^ (-53) == 1 # 9007199254740992) by reflexivity.
  rewrite K in R.
  assert (r * c <= c - c * (1 # 9007199254740992)) by nra.
  lra.
Qed.

(** A fixed point of the rounding in the unit interval is an outcome. *)
Lemma outcome_of r : Js.round53 r == r -> unit_interval r -> outcome r.
Proof.
  intros D [L U]. split; [split; [exact D|] | split; assumption].
  rewrite (Qabs_pos r L).
  assert (1 < 2 ^ 1024) by reflexivity. lra.
Qed.

(** Its floor is a natural number below the factor. *)
Lemma floor_times_below r c : outcome r -> (0 < c)%Z ->
  (0 <= Qfloor (Js.times r (inject_Z c)) < c)%Z.
Proof.
  intros [D [L U]] C.
  assert (C' : 1 <= inject_Z c) by (change 1 with (inject_Z 1); rewrite <- Zle_Qle; lia).
  pose proof (times_below r (inject_Z c) D L U C') as T.
  assert (N : 0 <= Js.times r (inject_Z c)) by (apply round53_nonneg; nra).
  split.
  - apply (Qfloor_resp_le 0) in N. exact N.
  - pose proof (Qfloor_le (Js.times r (inject_Z c))) as F.
    rewrite Zlt_Qlt. lra.
Qed.

(** The products that IEEE 754 arithmetic rounds away from the exact
    floor: 0.29 * 100 is 28.999999999999996. *)
Example times_rounds :
  Js.double (5224175567749775 # 18014398509481984) /\
  Js.floor (Js.times (5224175567749775 # 18014398509481984) (inject_Z 100)) = Js.Int 28 /\
  Js.double (1080863910568919 # 4503599627370496) /\
  Js.floor (Js.times (1080863910568919 # 4503599627370496) (inject_Z 100)) = Js.Int 24 /\
  Js.floor (Js.times (16385 # 32768) (inject_Z 99999999999999)) = Js.Int 50003051757812.
Proof.
  split; [split; [vm_compute|]; reflexivity|]. split; [vm_compute; reflexivity|].
  split; [split; [vm_compute|]; reflexivity|]. split; vm_compute; reflexivity.
Qed.

(** Where the doubles are subnormal the product is rounded to their
    grid: the half of the least double is rounded to the even multiple,
    zero. *)
Example times_subnormal :
  Js.times (1 # 2 ^ 1074) (1 # 2) == 0 /\
  Js.times (3 # 2 ^ 1074) (1 # 2) == 2 # 2 ^ 1074 /\
  Js.times (1 # 2 ^ 1074) (inject_Z 100) == 100 # 2 ^ 1074.
Proof. split; [|split]; vm_compute; reflexivity. Qed.

End Doubles.

(** ** The random index *)

Section RandomIndex.

Local Open Scope Z_scope.

Lemma floor_hundred_bounds r :
  outcome r -> 0 <= Qfloor (Js.times r (inject_Z 100)) < 100.
Proof. intros O. now apply floor_times_below. Qed.

(** With nodes in the session, [rng] is the value modulo their number. *)
Lemma rng_modulo n r :
  (0 < n)%nat -> outcome r ->
  Relayer.rng n r = Js.Int (Qfloor (Js.times r (inject_Z 100)) mod Z.of_nat n).
Proof.
  intros N U. apply floor_hundred_bounds in U.
  unfold Relayer.rng, Js.floor, Js.rem.
  destruct (Z.eqb_spec (Z.of_nat n) 0); [lia|].
  rewrite Z.rem_mod_nonneg by lia. reflexivity.
Qed.

(** Without nodes, [rng] is [NaN]. *)
Lemma rng_empty r : Relayer.rng 0 r = Js.NaN.
Proof. reflexivity. Qed.

(** Each of the hundred values is the value of some outcome. *)
Lemma draw_of_value d :
  (d < 100)%nat ->
  outcome (draw_of d) /\ Qfloor (Js.times (draw_of d) (inject_Z 100)) = Z.of_nat d.
Proof.
  intros H.
  assert (A : forallb draws_value floors = true) by (vm_compute; reflexivity).
  rewrite forallb_forall in A.
  specialize (A d ltac:(apply in_seq; lia)). unfold draws_value in A.
  apply andb_true_iff in A. destruct A as [A V].
  apply andb_true_iff in A. destruct A as [A U].
  apply andb_true_iff in A. destruct A as [D L].
  apply Qeq_bool_iff in D. apply Qle_bool_iff in L. apply Z.eqb_eq in V.
  apply negb_true_iff in U.
  split; [|exact V]. apply outcome_of; [exact D|]. split; [exact L|].
  apply Qnot_le_lt. intros C. apply Qle_bool_iff in C. congruence.
Qed.

(** The indices that some outcome selects are those below a hundred. *)
Lemma rng_reaches n i :
  (i < n)%nat ->
  (exists r, outcome r /\ Relayer.rng n r = Js.Int (Z.of_nat i)) <-> (i < 100)%nat.
Proof.
  intros I. split.
  - intros (r & O & E). rewrite (rng_modulo n r ltac:(lia) O) in E.
    injection E as E. pose proof (floor_hundred_bounds r O) as B.
    pose proof (Z.mod_le (Qfloor (Js.times r (inject_Z 100))) (Z.of_nat n)
                         ltac:(lia) ltac:(lia)).
    lia.
  - intros H. destruct (draw_of_value i H) as [O V].
    exists (draw_of i). split; [exact O|].
    rewrite (rng_modulo n _ ltac:(lia) O), V, Z.mod_small by lia. reflexivity.
Qed.

End RandomIndex.

Section Counting.

Lemma count_modulo n i : (0 < n)%nat -> (i < n)%nat -> forall k,
  List.length (filter (fun d => Nat.eqb (d mod n) i) (seq 0 k)) =
  (k / n + (if Nat.ltb i (k mod n) then 1 else 0))%nat.
Proof.
  intros N I. induction k as [|k IH].
  - rewrite Nat.Div0.div_0_l, Nat.Div0.mod_0_l. reflexivity.
  - rewrite seq_S, filter_app, length_app, IH. cbn [filter Nat.add].
    pose proof (Nat.div_mod_eq k n) as Dk.
    pose proof (Nat.mod_upper_bound k n ltac:(lia)) as Bk.
    destruct (Nat.eq_dec (S (k mod n)) n) as [W|W].
    + assert (Q : (S k / n = S (k / n))%nat).
      { symmetry. apply (Nat.div_unique _ _ _ 0); lia. }
      assert (R : (S k mod n = 0)%nat).
      { symmetry. apply (Nat.mod_unique _ _ (S (k / n))); lia. }
      rewrite Q, R.
      destruct (Nat.eqb_spec (k mod n) i), (Nat.ltb_spec i (k mod n)),
               (Nat.ltb_spec i 0); cbn [List.length]; lia.
    + assert (Q : (S k / n = k / n)%nat).
      { symmetry. apply (Nat.div_unique _ _ _ (S (k mod n))); lia. }
      assert (R : (S k mod n = S (k mod n))%nat).
      { symmetry. apply (Nat.mod_unique _ _ (k / n)); lia. }
      rewrite Q, R.
      destruct (Nat.eqb_spec (k mod n) i), (Nat.ltb_spec i (k mod n)),
               (Nat.ltb_spec i (S (k mod n))); cbn [List.length]; lia.
Qed.

(** The number of values whose index is [i]. *)
Lemma hits_count n i :
  (0 < n)%nat -> (i < n)%nat ->
  hits n i = (100 / n + (if Nat.ltb i (100 mod n) then 1 else 0))%nat.
Proof.
  intros N I. unfold hits, floors.
  rewrite <- (count_modulo n i N I 100). f_equal.
  apply filter_ext. intros d. unfold Js.rem.
  destruct (Z.eqb_spec (Z.of_nat n) 0); [lia|].
  rewrite Z.rem_mod_nonneg by lia. cbn [number_eqb].
  rewrite <- Nat2Z.inj_mod.
  destruct (Z.eqb_spec (Z.of_nat (d mod n)) (Z.of_nat i)), (Nat.eqb_spec (d mod n) i);
    (reflexivity || lia).
Qed.

Lemma uniform_iff_divides n : (0 < n)%nat -> uniform n <-> (100 mod n = 0)%nat.
Proof.
  intros N. unfold uniform.
  pose proof (Nat.div_mod_eq 100 n) as D.
  pose proof (Nat.mod_upper_bound 100 n ltac:(lia)) as B.
  split.
  - intros U. specialize (U 0%nat N). rewrite hits_count in U by lia.
    destruct (Nat.ltb_spec 0 (100 mod n)); nia.
  - intros Z i I. rewrite hits_count, Z by lia.
    destruct (Nat.ltb_spec i 0); [lia|]. nia.
Qed.

End Counting.

(** ** Selecting a node at random *)

(** Without nodes the index is [NaN] and the element read is [undefined]. *)
Lemma getRandomSessionNode_no_nodes session w :
  nodes session = [] ->
  Relayer.getRandomSessionNode session w = (inr None, snd (Math_random w)).
Proof.
  intros E. unfold Relayer.getRandomSessionNode, bind, ret, Math_random.
  rewrite E. reflexivity.
Qed.

(** On the empty session the selection returns [undefined], where the
    specification has it fail. *)
Lemma selectRandom_returns_undefined : ~ Spec.selectRandom_fails_on_empty.
Proof.
  intros H.
  destruct (H Sample.emptySession Sample.world eq_refl) as [e E].
  discriminate E.
Qed.

(** C3, amended. For every session whose node list is empty, the random
    node selection raises nothing: it makes its one draw and returns
    [undefined]. *)
Theorem getRandomSessionNode_empty (session : Session) (w : World) :
  nodes session = [] ->
  Relayer.getRandomSessionNode session w = (inr None, snd (Math_random w)) /\
  trace (snd (Relayer.getRandomSessionNode session w)) =
    (trace w ++ [Random (random w (drawn w))])%list /\
  drawn (snd (Relayer.getRandomSessionNode session w)) = S (drawn w) /\
  forall e, fst (Relayer.getRandomSessionNode session w) <> inl e.
Proof.
  intros E. rewrite (getRandomSessionNode_no_nodes _ w E).
  repeat split. intros e. discriminate.
Qed.

Lemma getRandomSessionNode_empty_witness :
  Relayer.getRandomSessionNode Sample.emptySession Sample.world =
    (inr None, snd (Math_random Sample.world)) /\
  trace (snd (Relayer.getRandomSessionNode Sample.emptySession Sample.world)) =
    (trace Sample.world ++ [Random (random Sample.world (drawn Sample.world))])%list /\
  drawn (snd (Relayer.getRandomSessionNode Sample.emptySession Sample.world)) =
    S (drawn Sample.world) /\
  forall e, fst (Relayer.getRandomSessionNode Sample.emptySession Sample.world) <> inl e.
Proof. apply (getRandomSessionNode_empty Sample.emptySession Sample.world). reflexivity. Defined.

(** With nodes in the session and an outcome of the random source, the
    selection reads the node at the index. *)
Lemma getRandomSessionNode_at session w :
  nodes session <> [] ->
  outcome (random w (drawn w)) ->
  Relayer.getRandomSessionNode session w =
  (inr (nth_error (nodes session)
                  (Z.to_nat (Qfloor (Js.times (random w (drawn w)) (inject_Z 100))
                             mod Z.of_nat (List.length (nodes session))))),
   snd (Math_random w)).
Proof.
  intros NE U.
  assert (N : (0 < List.length (nodes session))%nat)
    by (destruct (nodes session); [contradiction | cbn; lia]).
  unfold Relayer.getRandomSessionNode, bind, ret, Math_random. cbn [fst snd].
  rewrite (rng_modulo _ _ N U). unfold Js.index.
  pose proof (Z.mod_pos_bound (Qfloor (Js.times (random w (drawn w)) (inject_Z 100)))
                              (Z.of_nat (List.length (nodes session))) ltac:(lia)).
  destruct (Z.ltb_spec (Qfloor (Js.times (random w (drawn w)) (inject_Z 100))
                        mod Z.of_nat (List.length (nodes session))) 0); [lia|].
  reflexivity.
Qed.

(** In a session of a hundred and one nodes no outcome selects the last
    one: the index is a value below a hundred. *)
Lemma selectRandom_skips_nodes : ~ Spec.selectRandom_uniform.
Proof.
  intros H.
  assert (L : List.length (nodes Cases.crowd) = 101%nat) by reflexivity.
  specialize (H Cases.crowd 100%nat). rewrite L in H.
  apply (rng_reaches 101 100) in H; lia.
Qed.

Example hits_of_three : (hits 3 0, hits 3 1, hits 3 2) = (34, 33, 33)%nat.
Proof. vm_compute. reflexivity. Qed.

(** Past a hundred nodes, the last ones are the index of no value. *)
Example hits_past_hundred : (hits 101 99, hits 101 100) = (1, 0)%nat.
Proof. vm_compute. reflexivity. Qed.

(** C4, amended. For every session with a non-empty list of N nodes and
    every outcome of the random source, a double of [0, 1), the selection
    returns the node at index [d mod N], below N, where
    [d = Math.floor(outcome * 100)], the product rounded as a double, is
    one of the hundred values from 0 to 99, each of which is the value of
    some outcome. Index [i] is the index of [100 / N] of these values, and
    of one more when [i < 100 mod N]; it is selected by some outcome
    exactly when [i < 100]; and the hundred values are shared out equally
    among the N indices exactly when N divides 100. *)
Theorem getRandomSessionNode_index (session : Session) (w : World) :
  nodes session <> [] ->
  outcome (random w (drawn w)) ->
  exists (selected : Node) (d : Z),
    Js.floor (Js.times (random w (drawn w)) (inject_Z 100)) = Js.Int d /\
    (0 <= d < 100)%Z /\
    Relayer.getRandomSessionNode session w = (inr (Some selected), snd (Math_random w)) /\
    nth_error (nodes session)
              (Z.to_nat (d mod Z.of_nat (List.length (nodes session)))) = Some selected /\
    (Z.to_nat (d mod Z.of_nat (List.length (nodes session)))
     < List.length (nodes session))%nat /\
    (forall v, (v < 100)%nat ->
       exists r, outcome r /\
                 Js.floor (Js.times r (inject_Z 100)) = Js.Int (Z.of_nat v)) /\
    (forall i, (i < List.length (nodes session))%nat ->
       hits (List.length (nodes session)) i =
       (100 / List.length (nodes session) +
        (if Nat.ltb i (100 mod List.length (nodes session)) then 1 else 0))%nat /\
       ((exists r, outcome r /\
                   Relayer.rng (List.length (nodes session)) r = Js.Int (Z.of_nat i)) <->
        (i < 100)%nat)) /\
    (uniform (List.length (nodes session)) <->
     (100 mod List.length (nodes session) = 0)%nat).
Proof.
  intros NE U.
  assert (N : (0 < List.length (nodes session))%nat)
    by (destruct (nodes session); [contradiction | cbn; lia]).
  pose proof (floor_hundred_bounds _ U) as B.
  pose proof (getRandomSessionNode_at session w NE U) as G.
  set (d := Qfloor (Js.times (random w (drawn w)) (inject_Z 100))) in *.
  assert (I : (Z.to_nat (d mod Z.of_nat (List.length (nodes session)))
               < List.length (nodes session))%nat).
  { pose proof (Z.mod_pos_bound d (Z.of_nat (List.length (nodes session))) ltac:(lia)). lia. }
  destruct (nth_error (nodes session)
                      (Z.to_nat (d mod Z.of_nat (List.length (nodes session)))))
    as [selected|] eqn:S; [|apply nth_error_None in S; lia].
  exists selected, d.
  split; [reflexivity|]. split; [exact B|]. split; [exact G|].
  split; [exact S|]. split; [exact I|]. split; [|split].
  - intros v V. destruct (draw_of_value v V) as [O E].
    exists (draw_of v). split; [exact O|]. unfold Js.floor. now rewrite E.
  - intros i Hi. split; [now apply hits_count | now apply rng_reaches].
  - now apply uniform_iff_divides.
Qed.

Lemma getRandomSessionNode_index_witness :
  exists (selected : Node) (d : Z),
    Js.floor (Js.times (random Sample.world (drawn Sample.world)) (inject_Z 100)) =
      Js.Int d /\
    (0 <= d < 100)%Z /\
    Relayer.getRandomSessionNode Sample.session Sample.world =
      (inr (Some selected), snd (Math_random Sample.world)) /\
    nth_error (nodes Sample.session)
              (Z.to_nat (d mod Z.of_nat (List.length (nodes Sample.session)))) =
      Some selected /\
    (Z.to_nat (d mod Z.of_nat (List.length (nodes Sample.session)))
     < List.length (nodes Sample.session))%nat /\
    (forall v, (v < 100)%nat ->
       exists r, outcome r /\
                 Js.floor (Js.times r (inject_Z 100)) = Js.Int (Z.of_nat v)) /\
    (forall i, (i < List.length (nodes Sample.session))%nat ->
       hits (List.length (nodes Sample.session)) i =
       (100 / List.length (nodes Sample.session) +
        (if Nat.ltb i (100 mod List.length (nodes Sample.session)) then 1 else 0))%nat /\
       ((exists r, outcome r /\
                   Relayer.rng (List.length (nodes Sample.session)) r =
                   Js.Int (Z.of_nat i)) <->
        (i < 100)%nat)) /\
    (uniform (List.length (nodes Sample.session)) <->
     (100 mod List.length (nodes Sample.session) = 0)%nat).
Proof.
  apply (getRandomSessionNode_index Sample.session Sample.world).
  - discriminate.
  - split; [split; [vm_compute|]; reflexivity | split; [discriminate | reflexivity]].
Defined.

(** In the sample session the draw 1/2 gives the value 50 and the index 2. *)
Example getRandomSessionNode_sample :
  fst (Relayer.getRandomSessionNode Sample.session Sample.world) = inr (Some Sample.nodeC).
Proof. reflexivity. Qed.

(** ** The relay *)

Lemma sent_app t1 t2 : sent (t1 ++ t2) = (sent t1 ++ sent t2)%list.
Proof. apply flat_map_app. Qed.

Lemma signed_app t1 t2 : signed (t1 ++ t2) = (signed t1 ++ signed t2)%list.
Proof. apply flat_map_app. Qed.

Lemma hashed_app t1 t2 : hashed (t1 ++ t2) = (hashed t1 ++ hashed t2)%list.
Proof. apply flat_map_app. Qed.

(** The three failures of [relay] are told apart by their messages. *)
Lemma failures_distinct :
  MissingSignerError <> NoServiceNodeError /\
  MissingSignerError <> NodeNotInSessionError /\
  NoServiceNodeError <> NodeNotInSessionError.
Proof. repeat split; discriminate. Qed.

Ltac run :=
  cbv beta iota zeta delta
    [bind ret throw emit lift Math_random hashing await_sign await_relay
     random drawn trace fst snd negb].

Lemma relay_from_node a signer provider n w :
  Relayer.node a = Some n ->
  Relayer.relay a (Some signer) provider w = relay_from a signer provider n w.
Proof.
  intros E. unfold Relayer.relay, relay_from. rewrite E. run.
  destruct (Relayer.isNodeInSession (Relayer.session a) n); [|reflexivity].
  run.
  destruct (sign signer _) as [failure|signature].
  - rewrite <- !app_assoc. reflexivity.
  - destruct (provider_relay provider _ _) as [failure|raw];
      rewrite <- !app_assoc; reflexivity.
Qed.

Lemma relay_from_draw a signer provider n w w1 :
  Relayer.node a = None ->
  Relayer.getRandomSessionNode (Relayer.session a) w = (inr (Some n), w1) ->
  Relayer.relay a (Some signer) provider w = relay_from a signer provider n w1.
Proof.
  intros E G. unfold Relayer.relay, relay_from. rewrite E.
  unfold bind at 1. rewrite G.
  destruct (Relayer.isNodeInSession (Relayer.session a) n); [|reflexivity].
  run.
  destruct (sign signer _) as [failure|signature].
  - rewrite <- !app_assoc. reflexivity.
  - destruct (provider_relay provider _ _) as [failure|raw];
      rewrite <- !app_assoc; reflexivity.
Qed.

Lemma relay_no_node a signer provider w w1 :
  Relayer.node a = None ->
  Relayer.getRandomSessionNode (Relayer.session a) w = (inr None, w1) ->
  Relayer.relay a (Some signer) provider w = (inl NoServiceNodeError, w1).
Proof.
  intros E G. unfold Relayer.relay. rewrite E. unfold bind at 1. now rewrite G.
Qed.

(** The selection never fails; it returns a node or [undefined]. *)
Lemma getRandomSessionNode_total session w :
  exists chosen, Relayer.getRandomSessionNode session w = (inr chosen, snd (Math_random w)).
Proof. eexists. reflexivity. Qed.

(** A call that returns a response had a signer and resolved a node; the
    resolution sent, signed and hashed nothing. *)
Lemma relay_resolved a keyManager provider w response w' :
  Relayer.relay a keyManager provider w = (inr response, w') ->
  exists signer n w1,
    keyManager = Some signer /\
    relay_from a signer provider n w1 = (inr response, w') /\
    sent (trace w1) = sent (trace w) /\
    signed (trace w1) = signed (trace w) /\
    hashed (trace w1) = hashed (trace w).
Proof.
  intros R. destruct keyManager as [signer|]; [|discriminate R].
  destruct (Relayer.node a) as [n|] eqn:E.
  - rewrite (relay_from_node _ _ _ _ _ E) in R. now exists signer, n, w.
  - destruct (getRandomSessionNode_total (Relayer.session a) w) as [[n|] G].
    + rewrite (relay_from_draw _ _ _ _ _ _ E G) in R.
      exists signer, n, (snd (Math_random w)). repeat split; try exact R;
        cbn [Math_random snd trace];
        rewrite ?sent_app, ?signed_app, ?hashed_app; apply app_nil_r.
    + rewrite (relay_no_node _ _ _ _ _ E G) in R. discriminate R.
Qed.

(** C1. For every relay call that succeeds, one request is sent; the
    request_hash of its proof is the canonical digest of the payload and
    the meta of that same request, and the bytes that were signed are the
    digest of an object, with an empty signature, whose request_hash is
    this same digest; the signature of the proof is the signer's answer
    on those bytes. *)
Theorem relay_request_hash
    (a : Relayer.RelayArgs) (keyManager : option KeyManager) (provider : JsonRpcProvider)
    (w w' : World) (response : RelayResponse) :
  Relayer.relay a keyManager provider w = (inr response, w') ->
  exists (payload meta proof unsigned : Js.value) (url signature : string)
         (signer : KeyManager),
    sent (trace w') =
      (sent (trace w) ++
       [(Js.Obj [("payload", payload); ("meta", meta); ("proof", proof)], url)])%list /\
    Js.property "request_hash" proof = Some (Js.Str (Spec.hashRequest payload meta)) /\
    Js.property "request_hash" unsigned = Some (Js.Str (Spec.hashRequest payload meta)) /\
    Js.property "signature" unsigned = Some (Js.Str EmptyString) /\
    signed (trace w') = (signed (trace w) ++ [Spec.hash unsigned])%list /\
    hashed (trace w') =
      (hashed (trace w) ++ [Spec.hash unsigned; Spec.hashRequest payload meta])%list /\
    keyManager = Some signer /\
    sign signer (Spec.hash unsigned) = inr signature /\
    Js.property "signature" proof = Some (Js.Str signature).
Proof.
  intros R.
  destruct (relay_resolved _ _ _ _ _ _ R) as (signer & n & w1 & K & F & S1 & S2 & S3).
  unfold relay_from in F.
  destruct (Relayer.isNodeInSession (Relayer.session a) n); [|discriminate F].
  destruct (sign signer _) as [failure|signature] eqn:G; [discriminate F|].
  destruct (provider_relay provider _ _) as [failure|raw]; [discriminate F|].
  injection F as _ <-. cbn [trace].
  rewrite sent_app, signed_app, hashed_app, S1, S2, S3.
  exists (Relayer.relayPayload a), (Relayer.relayMeta a),
         (Relayer.relayProof a (Relayer.entropy (random w1 (drawn w1))) (publicKey n)
                             signature (Relayer.hashRequest (Relayer.requestHash a))),
         (Relayer.proofJSON
            (OfNumber (Relayer.entropy (random w1 (drawn w1))))
            (OfNumber (Js.Number (toString (sessionBlockHeight
                                              (header (Relayer.session a))))))
            (publicKey n) (Relayer.blockchain a) (Relayer.pocketAAT a)
            (Relayer.requestHash a)),
         (serviceUrl n), signature, signer.
  repeat split; try reflexivity; assumption.
Qed.

Lemma relay_request_hash_witness :
  exists (payload meta proof unsigned : Js.value) (url signature : string)
         (signer : KeyManager),
    sent (trace (snd (Relayer.relay (Sample.args Sample.session (Some Sample.nodeB))
                                    (Some Sample.signer) Sample.provider Sample.world))) =
      (sent (trace Sample.world) ++
       [(Js.Obj [("payload", payload); ("meta", meta); ("proof", proof)], url)])%list /\
    Js.property "request_hash" proof = Some (Js.Str (Spec.hashRequest payload meta)) /\
    Js.property "request_hash" unsigned = Some (Js.Str (Spec.hashRequest payload meta)) /\
    Js.property "signature" unsigned = Some (Js.Str EmptyString) /\
    signed (trace (snd (Relayer.relay (Sample.args Sample.session (Some Sample.nodeB))
                                      (Some Sample.signer) Sample.provider Sample.world))) =
      (signed (trace Sample.world) ++ [Spec.hash unsigned])%list /\
    hashed (trace (snd (Relayer.relay (Sample.args Sample.session (Some Sample.nodeB))
                                      (Some Sample.signer) Sample.provider Sample.world))) =
      (hashed (trace Sample.world) ++
       [Spec.hash unsigned; Spec.hashRequest payload meta])%list /\
    Some Sample.signer = Some signer /\
    sign signer (Spec.hash unsigned) = inr signature /\
    Js.property "signature" proof = Some (Js.Str signature).
Proof.
  apply (relay_request_hash (Sample.args Sample.session (Some Sample.nodeB))
                            (Some Sample.signer) Sample.provider Sample.world
                            (snd (Relayer.relay (Sample.args Sample.session (Some Sample.nodeB))
                                                (Some Sample.signer) Sample.provider
                                                Sample.world))
                            Sample.answer).
  vm_compute. reflexivity.
Defined.

(** ** The failures of a relay *)

(** C6. For every relay call with no signer configured, through the
    static operation or through an instance, relay fails with
    [MissingSignerError] and leaves the world as it was: nothing is drawn,
    hashed, signed or sent. *)
Theorem relay_without_signer
    (a : Relayer.RelayArgs) (provider : JsonRpcProvider) (dispatchers : list string)
    (w : World) :
  Relayer.relay a None provider w = (inl MissingSignerError, w) /\
  Relayer.relay_method {| Relayer.keyManager := None;
                          Relayer.provider := provider;
                          Relayer.dispatchers := dispatchers |} a w =
    (inl MissingSignerError, w) /\
  hashed (trace (snd (Relayer.relay a None provider w))) = hashed (trace w) /\
  sent (trace (snd (Relayer.relay a None provider w))) = sent (trace w).
Proof. repeat split. Qed.

(** Without a signer, a node outside the session does not change the
    failure: it is [MissingSignerError]. *)
Lemma outsider_without_signer : ~ Spec.outsider_fails.
Proof.
  intros H.
  destruct (H (Sample.args Sample.session (Some Sample.stranger)) None
              Sample.provider Sample.world Sample.stranger eq_refl) as [E _].
  - cbn. intros [F|[F|[F|[]]]]; discriminate F.
  - discriminate E.
Qed.

(** C5, amended. For every relay call with a signer configured where the
    caller supplies a node whose public key is not among the public keys
    of the session's nodes, relay fails with [NodeNotInSessionError] and
    leaves the world as it was: nothing is drawn, hashed, signed or sent.
    Without a signer nothing is sent either. *)
Theorem relay_outsider
    (a : Relayer.RelayArgs) (signer : KeyManager) (provider : JsonRpcProvider)
    (w : World) (n : Node) :
  Relayer.node a = Some n ->
  ~ In (publicKey n) (map publicKey (nodes (Relayer.session a))) ->
  Relayer.relay a (Some signer) provider w = (inl NodeNotInSessionError, w) /\
  sent (trace (snd (Relayer.relay a (Some signer) provider w))) = sent (trace w) /\
  sent (trace (snd (Relayer.relay a None provider w))) = sent (trace w).
Proof.
  intros E O. apply isNodeInSession_false in O.
  assert (R : Relayer.relay a (Some signer) provider w = (inl NodeNotInSessionError, w)).
  { rewrite (relay_from_node _ _ _ _ _ E). unfold relay_from. now rewrite O. }
  rewrite R. repeat split.
Qed.

Lemma relay_outsider_witness :
  Relayer.relay (Sample.args Sample.session (Some Sample.stranger))
                (Some Sample.signer) Sample.provider Sample.world =
    (inl NodeNotInSessionError, Sample.world) /\
  sent (trace (snd (Relayer.relay (Sample.args Sample.session (Some Sample.stranger))
                                  (Some Sample.signer) Sample.provider Sample.world))) =
    sent (trace Sample.world) /\
  sent (trace (snd (Relayer.relay (Sample.args Sample.session (Some Sample.stranger))
                                  None Sample.provider Sample.world))) =
    sent (trace Sample.world).
Proof.
  apply (relay_outsider (Sample.args Sample.session (Some Sample.stranger))
                        Sample.signer Sample.provider Sample.world Sample.stranger).
  - reflexivity.
  - cbn. intros [F|[F|[F|[]]]]; discriminate F.
Defined.

(** Without a signer, an empty session does not change the failure
    either. *)
Lemma empty_session_without_signer : ~ Spec.empty_session_fails.
Proof.
  intros H.
  destruct (H (Sample.args Sample.emptySession None) None
              Sample.provider Sample.world eq_refl eq_refl) as [E _].
  discriminate E.
Qed.

(** C7, amended. For every relay call with a signer configured where the
    caller supplies no node and the session has no nodes, relay fails with
    [NoServiceNodeError] after the one draw of the selection; nothing is
    hashed, signed or sent. Without a signer nothing is sent either. *)
Theorem relay_empty_session
    (a : Relayer.RelayArgs) (signer : KeyManager) (provider : JsonRpcProvider)
    (w : World) :
  Relayer.node a = None ->
  nodes (Relayer.session a) = [] ->
  Relayer.relay a (Some signer) provider w =
    (inl NoServiceNodeError, snd (Math_random w)) /\
  trace (snd (Relayer.relay a (Some signer) provider w)) =
    (trace w ++ [Random (random w (drawn w))])%list /\
  sent (trace (snd (Relayer.relay a (Some signer) provider w))) = sent (trace w) /\
  sent (trace (snd (Relayer.relay a None provider w))) = sent (trace w).
Proof.
  intros E N.
  assert (R : Relayer.relay a (Some signer) provider w =
              (inl NoServiceNodeError, snd (Math_random w))).
  { apply relay_no_node; [exact E | now apply getRandomSessionNode_no_nodes]. }
  rewrite R. cbn [snd Math_random trace]. repeat split.
  rewrite sent_app. apply app_nil_r.
Qed.

Lemma relay_empty_session_witness :
  Relayer.relay (Sample.args Sample.emptySession None)
                (Some Sample.signer) Sample.provider Sample.world =
    (inl NoServiceNodeError, snd (Math_random Sample.world)) /\
  trace (snd (Relayer.relay (Sample.args Sample.emptySession None)
                            (Some Sample.signer) Sample.provider Sample.world)) =
    (trace Sample.world ++ [Random (random Sample.world (drawn Sample.world))])%list /\
  sent (trace (snd (Relayer.relay (Sample.args Sample.emptySession None)
                                  (Some Sample.signer) Sample.provider Sample.world))) =
    sent (trace Sample.world) /\
  sent (trace (snd (Relayer.relay (Sample.args Sample.emptySession None)
                                  None Sample.provider Sample.world))) =
    sent (trace Sample.world).
Proof.
  apply (relay_empty_session (Sample.args Sample.emptySession None)
                             Sample.signer Sample.provider Sample.world);
    reflexivity.
Defined.

(** ** Membership by public key *)

(** Without a signer, a member of the session is not dispatched to. *)
Lemma member_without_signer : ~ Spec.member_is_dispatched.
Proof.
  intros H.
  destruct (H (Sample.args Sample.session (Some Sample.nodeB)) None
              Sample.provider Sample.world Sample.nodeB eq_refl) as [_ [request E]].
  - cbn. auto.
  - discriminate E.
Qed.

(** C10, amended. Session membership is decided by public key alone: for
    every relay call with a caller-supplied node whose public key is that
    of some node of the session, the membership check passes, whatever the
    service URL of the supplied node; with a signer configured that signs
    the proof bytes, the call sends one request, to the service URL of the
    supplied node. *)
Theorem relay_member_dispatch
    (a : Relayer.RelayArgs) (signer : KeyManager) (provider : JsonRpcProvider)
    (w : World) (n : Node) (signature : string) :
  Relayer.node a = Some n ->
  In (publicKey n) (map publicKey (nodes (Relayer.session a))) ->
  sign signer (Relayer.proofBytes a (Relayer.entropy (random w (drawn w))) (publicKey n)) =
    inr signature ->
  Relayer.isNodeInSession (Relayer.session a) n = true /\
  (forall url : string,
     Relayer.isNodeInSession (Relayer.session a)
                             {| publicKey := publicKey n; serviceUrl := url |} = true) /\
  sent (trace (snd (Relayer.relay a (Some signer) provider w))) =
    (sent (trace w) ++
     [(Relayer.relayRequest a
         (Relayer.relayProof a (Relayer.entropy (random w (drawn w))) (publicKey n)
                             signature (Relayer.hashRequest (Relayer.requestHash a))),
       serviceUrl n)])%list.
Proof.
  intros E I G. apply isNodeInSession_spec in I.
  split; [exact I|]. split; [intros url; exact I|].
  rewrite (relay_from_node _ _ _ _ _ E). unfold relay_from. rewrite I, G.
  destruct (provider_relay provider _ _); cbn [snd trace];
    rewrite sent_app; reflexivity.
Qed.

Lemma relay_member_dispatch_witness :
  Relayer.isNodeInSession (Relayer.session (Sample.args Sample.session (Some Sample.nodeB')))
                          Sample.nodeB' = true /\
  (forall url : string,
     Relayer.isNodeInSession
       (Relayer.session (Sample.args Sample.session (Some Sample.nodeB')))
       {| publicKey := publicKey Sample.nodeB'; serviceUrl := url |} = true) /\
  sent (trace (snd (Relayer.relay (Sample.args Sample.session (Some Sample.nodeB'))
                                  (Some Sample.signer) Sample.provider Sample.world))) =
    (sent (trace Sample.world) ++
     [(Relayer.relayRequest (Sample.args Sample.session (Some Sample.nodeB'))
         (Relayer.relayProof (Sample.args Sample.session (Some Sample.nodeB'))
            (Relayer.entropy (random Sample.world (drawn Sample.world)))
            (publicKey Sample.nodeB')
            ("signed:" ++
             Relayer.proofBytes (Sample.args Sample.session (Some Sample.nodeB'))
               (Relayer.entropy (random Sample.world (drawn Sample.world)))
               (publicKey Sample.nodeB'))
            (Relayer.hashRequest
               (Relayer.requestHash (Sample.args Sample.session (Some Sample.nodeB'))))),
       serviceUrl Sample.nodeB')])%list.
Proof.
  apply (relay_member_dispatch (Sample.args Sample.session (Some Sample.nodeB'))
                               Sample.signer Sample.provider Sample.world Sample.nodeB').
  - reflexivity.
  - cbn. auto.
  - reflexivity.
Defined.

(** The supplied node shares its key with a node of the session and not
    its service URL; the request goes to the supplied one. *)
Example relay_to_supplied_url :
  In Sample.nodeB (nodes Sample.session) /\
  publicKey Sample.nodeB' = publicKey Sample.nodeB /\
  serviceUrl Sample.nodeB' <> serviceUrl Sample.nodeB /\
  map snd (sent (trace (snd (Relayer.relay (Sample.args Sample.session (Some Sample.nodeB'))
                                           (Some Sample.signer) Sample.provider
                                           Sample.world)))) =
    ["https://elsewhere.example"].
Proof.
  split; [|split; [|split]].
  - cbn. auto.
  - reflexivity.
  - discriminate.
  - vm_compute. reflexivity.
Qed.

(** * Further properties *)

(** ** Membership and selection *)

(** X1. [isNodeInSession] is true exactly when the node's public key is
    the public key of some node of the session; it is false on a session
    without nodes, and it does not look at the service URL. *)
Theorem isNodeInSession_by_public_key (session : Session) (node : Node) (url : string) :
  (Relayer.isNodeInSession session node = true <->
   exists member, publicKey member = publicKey node /\ In member (nodes session)) /\
  Relayer.isNodeInSession {| header := header session; nodes := [] |} node = false /\
  Relayer.isNodeInSession session {| publicKey := publicKey node; serviceUrl := url |} =
    Relayer.isNodeInSession session node.
Proof.
  split; [|split; reflexivity].
  rewrite isNodeInSession_spec, in_map_iff. reflexivity.
Qed.

Lemma index_In {A : Type} (l : list A) (n : Js.number) (x : A) :
  Js.index l n = Some x -> In x l.
Proof.
  destruct n as [z| |b]; cbn [Js.index]; try discriminate.
  destruct (z <? 0)%Z; [discriminate|]. apply nth_error_In.
Qed.

(** X2. Whatever the draw, a node returned by [getRandomSessionNode] is a
    node of the session, so it passes [isNodeInSession]. *)
Theorem getRandomSessionNode_member (session : Session) (w : World) (n : Node) :
  fst (Relayer.getRandomSessionNode session w) = inr (Some n) ->
  In n (nodes session) /\ Relayer.isNodeInSession session n = true.
Proof.
  unfold Relayer.getRandomSessionNode, bind, ret, Math_random. cbn [fst].
  intros E. injection E as E. apply index_In in E. split; [exact E|].
  apply isNodeInSession_spec, in_map, E.
Qed.

Lemma getRandomSessionNode_member_witness :
  In Sample.nodeC (nodes Sample.session) /\
  Relayer.isNodeInSession Sample.session Sample.nodeC = true.
Proof.
  apply (getRandomSessionNode_member Sample.session Sample.world Sample.nodeC).
  reflexivity.
Defined.

(** X3. On a session with exactly one node the selection returns that
    node, whatever the draw. *)
Theorem getRandomSessionNode_single (session : Session) (w : World) (n : Node) :
  nodes session = [n] ->
  Relayer.getRandomSessionNode session w = (inr (Some n), snd (Math_random w)).
Proof.
  intros E. unfold Relayer.getRandomSessionNode, bind, ret, Math_random, Relayer.rng.
  rewrite E. cbn [List.length Js.floor Js.rem Z.of_nat Pos.of_succ_nat Z.eqb].
  rewrite Z.rem_1_r. reflexivity.
Qed.

Lemma getRandomSessionNode_single_witness :
  Relayer.getRandomSessionNode Cases.lonely Cases.turning =
  (inr (Some Sample.nodeA), snd (Math_random Cases.turning)).
Proof.
  apply (getRandomSessionNode_single Cases.lonely Cases.turning Sample.nodeA).
  reflexivity.
Defined.

(** X4. A node can be returned by [getRandomSessionNode] exactly when it
    stands at an index below 100 in the session: for every node among the
    first hundred some outcome of the random source selects it, and for a
    node from the hundred-and-first on none does. *)
Theorem getRandomSessionNode_reach (session : Session) (n : Node) :
  (exists w, outcome (random w (drawn w)) /\
             fst (Relayer.getRandomSessionNode session w) = inr (Some n)) <->
  (exists i, (i < 100)%nat /\ nth_error (nodes session) i = Some n).
Proof.
  split.
  - intros (w & O & G).
    destruct (nodes session) as [|first rest] eqn:E.
    + rewrite (getRandomSessionNode_no_nodes session w E) in G. discriminate G.
    + assert (NE : nodes session <> []) by (rewrite E; discriminate).
      rewrite (getRandomSessionNode_at session w NE O) in G. cbn [fst] in G.
      injection G as G. rewrite E in G.
      pose proof (floor_hundred_bounds _ O) as B.
      pose proof (Z.mod_le (Qfloor (Js.times (random w (drawn w)) (inject_Z 100)))
                           (Z.of_nat (List.length (first :: rest)))
                           ltac:(lia) ltac:(cbn [List.length]; lia)) as M.
      pose proof (Z.mod_pos_bound (Qfloor (Js.times (random w (drawn w)) (inject_Z 100)))
                                  (Z.of_nat (List.length (first :: rest)))
                                  ltac:(cbn [List.length]; lia)) as P.
      eexists. split; [|exact G]. lia.
  - intros (i & H & S).
    assert (I : (i < List.length (nodes session))%nat)
      by (apply nth_error_Some; congruence).
    assert (NE : nodes session <> [])
      by (intros Z; rewrite Z in I; cbn in I; lia).
    destruct (draw_of_value i H) as [O V].
    pose proof (getRandomSessionNode_at session (Cases.steady (draw_of i)) NE O) as G.
    cbn [Cases.steady random drawn] in G.
    rewrite V, Z.mod_small, Nat2Z.id, S in G by lia.
    exists (Cases.steady (draw_of i)). split; [exact O|].
    rewrite G. reflexivity.
Qed.

Lemma getRandomSessionNode_reach_witness :
  exists i, (i < 100)%nat /\ nth_error (nodes Sample.session) i = Some Sample.nodeA.
Proof.
  apply (getRandomSessionNode_reach Sample.session Sample.nodeA).
  exists (Cases.steady (1080863910568919 # 4503599627370496)).
  split; [split; [split; [vm_compute|]; reflexivity | split; [discriminate | reflexivity]]|].
  vm_compute. reflexivity.
Defined.

(** In the session of a hundred and one nodes the node at index 99 is
    returned for the outcome 127/128, and the node at index 100 stands
    past the hundred. *)
Example getRandomSessionNode_crowd :
  fst (Relayer.getRandomSessionNode Cases.crowd (Cases.steady (draw_of 99))) =
    inr (nth_error (nodes Cases.crowd) 99) /\
  draw_of 99 = 127 # 128 /\
  option_map publicKey (nth_error (nodes Cases.crowd) 100) = Some "n100".
Proof. vm_compute. repeat split. Qed.

(** ** Entropy *)

(** X5. For an outcome of the random source, a double of [0, 1), the
    entropy [Math.floor(outcome * 99999999999999)], the product rounded as
    a double, is an integer from 0 to 99999999999998, below 2^53, and
    [Number(entropy.toString())] gives it back: the proof that is sent and
    the bytes that are signed hold the same entropy. *)
Theorem entropy_range (r : Q) :
  outcome r ->
  exists z : Z,
    Relayer.entropy r = Js.Int z /\
    (0 <= z <= 99999999999998)%Z /\
    (z < 2 ^ 53)%Z /\
    Js.Number (toString (OfNumber (Relayer.entropy r))) = Relayer.entropy r.
Proof.
  intros O. exists (Qfloor (Js.times r (inject_Z 99999999999999))).
  pose proof (floor_times_below r 99999999999999 O ltac:(lia)) as B.
  split; [reflexivity|]. split; [lia|]. split; [lia|].
  cbn [toString]. apply Number_toString_inverse.
Qed.

Lemma entropy_range_witness :
  exists z : Z,
    Relayer.entropy (16385 # 32768) = Js.Int z /\
    (0 <= z <= 99999999999998)%Z /\
    (z < 2 ^ 53)%Z /\
    Js.Number (toString (OfNumber (Relayer.entropy (16385 # 32768)))) =
      Relayer.entropy (16385 # 32768).
Proof.
  apply (entropy_range (16385 # 32768)).
  split; [split; [vm_compute|]; reflexivity | split; [discriminate | reflexivity]].
Defined.

(** The largest entropy is that of the last double below one. *)
Example entropy_largest :
  outcome (9007199254740991 # 9007199254740992) /\
  Relayer.entropy (9007199254740991 # 9007199254740992) = Js.Int 99999999999998 /\
  Relayer.entropy 0 = Js.Int 0.
Proof.
  split; [split; [split; [vm_compute|]; reflexivity | split; [discriminate | reflexivity]]|].
  vm_compute. split; reflexivity.
Qed.

(** ** The footprint of a relay *)

Lemma draws_app t1 t2 : draws (t1 ++ t2) = (draws t1 ++ draws t2)%list.
Proof. apply flat_map_app. Qed.

(** How a call with a signer resolves its node: the caller's node in the
    world as it is, a node of the session after one draw, or none. *)
Lemma relay_resolution a signer provider w :
  (exists n, Relayer.node a = Some n /\
             Relayer.relay a (Some signer) provider w = relay_from a signer provider n w) \/
  (exists n, Relayer.node a = None /\ In n (nodes (Relayer.session a)) /\
             Relayer.relay a (Some signer) provider w =
             relay_from a signer provider n (snd (Math_random w))) \/
  (Relayer.node a = None /\
   Relayer.relay a (Some signer) provider w =
   (inl NoServiceNodeError, snd (Math_random w))).
Proof.
  destruct (Relayer.node a) as [n|] eqn:E.
  - left. exists n. split; [reflexivity | now apply relay_from_node].
  - right. destruct (getRandomSessionNode_total (Relayer.session a) w) as [[n|] G].
    + left. exists n. split; [reflexivity|]. split.
      * apply (f_equal fst) in G. cbn [fst] in G.
        unfold Relayer.getRandomSessionNode, bind, ret, Math_random in G.
        cbn [fst] in G. injection G as G. now apply index_In in G.
      * now apply relay_from_draw.
    + right. split; [reflexivity | now apply relay_no_node].
Qed.

Ltac footprint :=
  cbn [fst snd trace drawn random Math_random];
  rewrite ?sent_app, ?signed_app, ?hashed_app, ?draws_app;
  cbn [sent signed hashed draws flat_map app];
  rewrite <- ?app_assoc, ?app_nil_r;
  cbn [app].

(** X6. Every call leaves the random source as it is and consumes at most
    two of its outcomes, the next ones in order, none of them twice; it
    asks for at most one signature and sends at most one request, never
    without a signature before it, and it computes one digest for the
    signature and one more for the request. *)
Theorem relay_footprint
    (a : Relayer.RelayArgs) (keyManager : option KeyManager) (provider : JsonRpcProvider)
    (w : World) :
  exists (k : nat) (s : list (Js.value * string)) (g h : list string),
    random (snd (Relayer.relay a keyManager provider w)) = random w /\
    drawn (snd (Relayer.relay a keyManager provider w)) = (drawn w + k)%nat /\
    draws (trace (snd (Relayer.relay a keyManager provider w))) =
      (draws (trace w) ++ map (random w) (seq (drawn w) k))%list /\
    sent (trace (snd (Relayer.relay a keyManager provider w))) = (sent (trace w) ++ s)%list /\
    signed (trace (snd (Relayer.relay a keyManager provider w))) =
      (signed (trace w) ++ g)%list /\
    hashed (trace (snd (Relayer.relay a keyManager provider w))) =
      (hashed (trace w) ++ h)%list /\
    (k <= 2)%nat /\
    (List.length s <= List.length g <= 1)%nat /\
    List.length h = (List.length g + List.length s)%nat.
Proof.
  destruct keyManager as [signer|].
  - destruct (relay_resolution a signer provider w)
      as [(n & _ & ->) | [(n & _ & _ & ->) | (_ & ->)]];
      [unfold relay_from; destruct (Relayer.isNodeInSession _ n);
       [destruct (sign signer _); [|destruct (provider_relay provider _ _)]|] ..
      | ]; footprint.
    all: first
      [ solve [exists 0%nat; do 3 eexists; repeat split;
               first [reflexivity | symmetry; apply app_nil_r | cbn; lia]]
      | solve [exists 1%nat; do 3 eexists; repeat split;
               first [reflexivity | symmetry; apply app_nil_r | cbn; lia]]
      | solve [exists 2%nat; do 3 eexists; repeat split;
               first [reflexivity | symmetry; apply app_nil_r | cbn; lia]] ].
  - exists 0%nat, [], [], []. footprint.
    repeat split; first [reflexivity | symmetry; apply app_nil_r | cbn; lia].
Qed.

(** ** The course of a relay *)

(** X7. With a signer configured, when the caller supplies no node, the
    session has nodes and the draw is an outcome of the random source, the
    call passes the membership check with the node at the index
    [Math.floor(outcome * 100) mod N]; it takes a second draw for the
    entropy and, when the signer signs, sends one request to the service
    URL of that node. *)
Theorem relay_selects_member
    (a : Relayer.RelayArgs) (signer : KeyManager) (provider : JsonRpcProvider)
    (w : World) (n : Node) (signature : string) :
  Relayer.node a = None ->
  outcome (random w (drawn w)) ->
  nth_error (nodes (Relayer.session a))
            (Z.to_nat (Qfloor (Js.times (random w (drawn w)) (inject_Z 100))
                       mod Z.of_nat (List.length (nodes (Relayer.session a))))) = Some n ->
  sign signer (Relayer.proofBytes a (Relayer.entropy (random w (S (drawn w))))
                                  (publicKey n)) = inr signature ->
  Relayer.isNodeInSession (Relayer.session a) n = true /\
  sent (trace (snd (Relayer.relay a (Some signer) provider w))) =
    (sent (trace w) ++
     [(Relayer.relayRequest a
         (Relayer.relayProof a (Relayer.entropy (random w (S (drawn w)))) (publicKey n)
                             signature (Relayer.hashRequest (Relayer.requestHash a))),
       serviceUrl n)])%list /\
  draws (trace (snd (Relayer.relay a (Some signer) provider w))) =
    (draws (trace w) ++ [random w (drawn w); random w (S (drawn w))])%list.
Proof.
  intros E U S G.
  assert (NE : nodes (Relayer.session a) <> []).
  { intros Z. rewrite Z in S. now destruct (Z.to_nat _). }
  assert (I : Relayer.isNodeInSession (Relayer.session a) n = true).
  { apply isNodeInSession_spec, in_map. eapply nth_error_In, S. }
  split; [exact I|].
  rewrite (relay_from_draw a signer provider n w (snd (Math_random w)) E)
    by (rewrite (getRandomSessionNode_at _ _ NE U), S; reflexivity).
  unfold relay_from. rewrite I. cbn [snd Math_random random drawn trace].
  rewrite G.
  destruct (provider_relay provider _ _); footprint; split; reflexivity.
Qed.

Lemma relay_selects_member_witness :
  Relayer.isNodeInSession (Relayer.session (Sample.args Sample.session None))
                          Sample.nodeA = true /\
  sent (trace (snd (Relayer.relay (Sample.args Sample.session None)
                                  (Some Sample.signer) Sample.provider
                                  (Cases.steady (1080863910568919 # 4503599627370496))))) =
    (sent (trace (Cases.steady (1080863910568919 # 4503599627370496))) ++
     [(Relayer.relayRequest (Sample.args Sample.session None)
         (Relayer.relayProof (Sample.args Sample.session None)
            (Relayer.entropy (1080863910568919 # 4503599627370496))
            (publicKey Sample.nodeA)
            ("signed:" ++
             Relayer.proofBytes (Sample.args Sample.session None)
               (Relayer.entropy (1080863910568919 # 4503599627370496))
               (publicKey Sample.nodeA))
            (Relayer.hashRequest (Relayer.requestHash (Sample.args Sample.session None)))),
       serviceUrl Sample.nodeA)])%list /\
  draws (trace (snd (Relayer.relay (Sample.args Sample.session None)
                                   (Some Sample.signer) Sample.provider
                                   (Cases.steady (1080863910568919 # 4503599627370496))))) =
    (draws (trace (Cases.steady (1080863910568919 # 4503599627370496))) ++
     [1080863910568919 # 4503599627370496; 1080863910568919 # 4503599627370496])%list.
Proof.
  apply (relay_selects_member (Sample.args Sample.session None) Sample.signer
                              Sample.provider
                              (Cases.steady (1080863910568919 # 4503599627370496))
                              Sample.nodeA).
  - reflexivity.
  - split; [split; [vm_compute|]; reflexivity | split; [discriminate | reflexivity]].
  - vm_compute. reflexivity.
  - reflexivity.
Defined.



(** X9. When the provider fails on the request the call sent, the call
    fails with the provider's failure: the request is sent once, and not
    again. *)
Theorem relay_transport_fails
    (a : Relayer.RelayArgs) (keyManager : option KeyManager) (provider : JsonRpcProvider)
    (w : World) (request : Js.value) (url : string) (failure : exception) :
  sent (trace (snd (Relayer.relay a keyManager provider w))) =
    (sent (trace w) ++ [(request, url)])%list ->
  provider_relay provider request url = inl failure ->
  fst (Relayer.relay a keyManager provider w) = inl failure.
Proof.
  destruct keyManager as [signer|];
    [destruct (relay_resolution a signer provider w)
       as [(n & _ & ->) | [(n & _ & _ & ->) | (_ & ->)]];
     [unfold relay_from; destruct (Relayer.isNodeInSession _ n);
      [destruct (sign signer _) eqn:G;
       [|destruct (provider_relay provider _ _) eqn:P]|] ..
     | ] | unfold Relayer.relay, throw ]; footprint; intros S F;
    try (rewrite <- (app_nil_r (sent (trace w))) in S at 1;
         apply app_inv_head in S; discriminate S);
    apply app_inv_head in S; injection S as <- <-;
    cbn [snd Math_random random drawn] in P; congruence.
Qed.

Lemma relay_transport_fails_witness :
  fst (Relayer.relay (Sample.args Sample.session (Some Sample.nodeB))
                     (Some Sample.signer) Cases.unreachable Sample.world) =
    inl (Error "ECONNREFUSED").
Proof.
  apply (relay_transport_fails
           (Sample.args Sample.session (Some Sample.nodeB))
           (Some Sample.signer) Cases.unreachable Sample.world
           (Relayer.relayRequest (Sample.args Sample.session (Some Sample.nodeB))
              (Relayer.relayProof (Sample.args Sample.session (Some Sample.nodeB))
                 (Relayer.entropy (1 # 2)) "bb02"
                 ("signed:" ++ Relayer.proofBytes
                                 (Sample.args Sample.session (Some Sample.nodeB))
                                 (Relayer.entropy (1 # 2)) "bb02")
                 (Relayer.hashRequest
                    (Relayer.requestHash (Sample.args Sample.session (Some Sample.nodeB))))))
           "https://b.example:443" (Error "ECONNREFUSED")).
  - reflexivity.
  - reflexivity.
Defined.

(** X10. With a signer and a caller-supplied node, the call returns a
    response exactly when the node's key is in the session, the signer
    signs the proof bytes, the provider answers the request and the answer
    passes [validateRelayResponse], which gives the response. *)
Theorem relay_succeeds_iff
    (a : Relayer.RelayArgs) (signer : KeyManager) (provider : JsonRpcProvider)
    (w : World) (n : Node) (response : RelayResponse) :
  Relayer.node a = Some n ->
  (fst (Relayer.relay a (Some signer) provider w) = inr response <->
   Relayer.isNodeInSession (Relayer.session a) n = true /\
   exists signature raw,
     sign signer (Relayer.proofBytes a (Relayer.entropy (random w (drawn w)))
                                     (publicKey n)) = inr signature /\
     provider_relay provider
       (Relayer.relayRequest a
          (Relayer.relayProof a (Relayer.entropy (random w (drawn w))) (publicKey n)
                              signature (Relayer.hashRequest (Relayer.requestHash a))))
       (serviceUrl n) = inr raw /\
     validateRelayResponse raw = inr response).
Proof.
  intros E. rewrite (relay_from_node _ _ _ _ _ E). unfold relay_from.
  destruct (Relayer.isNodeInSession _ n).
  - destruct (sign signer _) as [e|signature].
    + split; [discriminate | intros (_ & s & raw & S & _); discriminate S].
    + destruct (provider_relay provider _ _) as [e|raw] eqn:P; cbn [fst].
      * split; [discriminate|]. intros (_ & s & raw & S & P' & _).
        injection S as <-. congruence.
      * split.
        -- intros V. split; [reflexivity|]. now exists signature, raw.
        -- intros (_ & s & raw' & S & P' & V). injection S as <-. congruence.
  - split; [discriminate | intros [F _]; discriminate F].
Qed.

Lemma relay_succeeds_iff_witness :
  fst (Relayer.relay (Sample.args Sample.session (Some Sample.nodeB))
                     (Some Sample.signer) Sample.provider Sample.world) =
    inr Sample.answer <->
  Relayer.isNodeInSession (Relayer.session (Sample.args Sample.session (Some Sample.nodeB)))
                          Sample.nodeB = true /\
  exists signature raw,
    sign Sample.signer
         (Relayer.proofBytes (Sample.args Sample.session (Some Sample.nodeB))
                             (Relayer.entropy (random Sample.world (drawn Sample.world)))
                             (publicKey Sample.nodeB)) = inr signature /\
    provider_relay Sample.provider
      (Relayer.relayRequest (Sample.args Sample.session (Some Sample.nodeB))
         (Relayer.relayProof (Sample.args Sample.session (Some Sample.nodeB))
            (Relayer.entropy (random Sample.world (drawn Sample.world)))
            (publicKey Sample.nodeB) signature
            (Relayer.hashRequest
               (Relayer.requestHash (Sample.args Sample.session (Some Sample.nodeB))))))
      (serviceUrl Sample.nodeB) = inr raw /\
    validateRelayResponse raw = inr Sample.answer.
Proof.
  apply (relay_succeeds_iff (Sample.args Sample.session (Some Sample.nodeB))
                            Sample.signer Sample.provider Sample.world Sample.nodeB
                            Sample.answer).
  reflexivity.
Defined.

(** The instance method is the static [relay] on the instance's own
    signer and provider, whether or not it has a signer: its guard and its
    [node ?? undefined] change nothing. *)
Theorem relay_method_is_relay (self : Relayer.t) (a : Relayer.RelayArgs) (w : World) :
  Relayer.relay_method self a w =
  Relayer.relay a (Relayer.keyManager self) (Relayer.provider self) w.
Proof. unfold Relayer.relay_method. now destruct (Relayer.keyManager self). Qed.

(** ** The request that is sent *)



(** X12. The bytes that were signed can be computed again from the
    request that is sent: they are the proof bytes of the entropy, block
    height, servicer key, blockchain and AAT found in its proof, and of its
    payload and meta. *)
Theorem relay_proof_recomputable
    (a : Relayer.RelayArgs) (keyManager : option KeyManager) (provider : JsonRpcProvider)
    (w : World) (request : Js.value) (url : string) :
  sent (trace (snd (Relayer.relay a keyManager provider w))) =
    (sent (trace w) ++ [(request, url)])%list ->
  exists (payload meta proof : Js.value) (entropy height : Js.number)
         (servicer chain v app client signature : string),
    request = Js.Obj [("payload", payload); ("meta", meta); ("proof", proof)] /\
    Js.property "entropy" proof = Some (Js.Num entropy) /\
    Js.property "session_block_height" proof = Some (Js.Num height) /\
    Js.property "servicer_pub_key" proof = Some (Js.Str servicer) /\
    Js.property "blockchain" proof = Some (Js.Str chain) /\
    Js.property "aat" proof =
      Some (Js.Obj [("version", Js.Str v); ("app_pub_key", Js.Str app);
                    ("client_pub_key", Js.Str client); ("signature", Js.Str signature)]) /\
    signed (trace (snd (Relayer.relay a keyManager provider w))) =
      (signed (trace w) ++
       [Spec.buildProofBytes entropy height servicer chain
          {| version := v; clientPublicKey := client;
             applicationPublicKey := app; applicationSignature := signature |}
          (Js.Obj [("payload", payload); ("meta", meta)])])%list.
Proof.
  destruct keyManager as [signer|];
    [destruct (relay_resolution a signer provider w)
       as [(n & N & ->) | [(n & N & M & ->) | (_ & ->)]];
     [unfold relay_from; destruct (Relayer.isNodeInSession _ n) eqn:I;
      [destruct (sign signer _) eqn:G;
       [|destruct (provider_relay provider _ _) eqn:P]|] ..
     | ] | unfold Relayer.relay, throw ]; footprint; intros S;
    try (rewrite <- (app_nil_r (sent (trace w))) in S at 1;
         apply app_inv_head in S; discriminate S);
    apply app_inv_head in S; injection S as <- <-;
    do 11 eexists;
    (split; [reflexivity|]); repeat (split; [reflexivity|]);
    unfold Relayer.proofBytes, Relayer.generateProofBytes, Relayer.proofJSONStr,
           Relayer.proofJSON, Spec.buildProofBytes, Spec.hash;
    cbn [toString]; rewrite !Number_toString_inverse; reflexivity.
Qed.

Lemma relay_proof_recomputable_witness :
  exists (payload meta proof : Js.value) (entropy height : Js.number)
         (servicer chain v app client signature : string),
    Relayer.relayRequest (Sample.args Sample.session (Some Sample.nodeB))
      (Relayer.relayProof (Sample.args Sample.session (Some Sample.nodeB))
         (Relayer.entropy (1 # 2)) "bb02"
         ("signed:" ++ Relayer.proofBytes (Sample.args Sample.session (Some Sample.nodeB))
                                          (Relayer.entropy (1 # 2)) "bb02")
         (Relayer.hashRequest
            (Relayer.requestHash (Sample.args Sample.session (Some Sample.nodeB))))) =
      Js.Obj [("payload", payload); ("meta", meta); ("proof", proof)] /\
    Js.property "entropy" proof = Some (Js.Num entropy) /\
    Js.property "session_block_height" proof = Some (Js.Num height) /\
    Js.property "servicer_pub_key" proof = Some (Js.Str servicer) /\
    Js.property "blockchain" proof = Some (Js.Str chain) /\
    Js.property "aat" proof =
      Some (Js.Obj [("version", Js.Str v); ("app_pub_key", Js.Str app);
                    ("client_pub_key", Js.Str client); ("signature", Js.Str signature)]) /\
    signed (trace (snd (Relayer.relay (Sample.args Sample.session (Some Sample.nodeB))
                                      (Some Sample.signer) Sample.provider Sample.world))) =
      (signed (trace Sample.world) ++
       [Spec.buildProofBytes entropy height servicer chain
          {| version := v; clientPublicKey := client;
             applicationPublicKey := app; applicationSignature := signature |}
          (Js.Obj [("payload", payload); ("meta", meta)])])%list.
Proof.
  apply (relay_proof_recomputable
           (Sample.args Sample.session (Some Sample.nodeB))
           (Some Sample.signer) Sample.provider Sample.world
           (Relayer.relayRequest (Sample.args Sample.session (Some Sample.nodeB))
              (Relayer.relayProof (Sample.args Sample.session (Some Sample.nodeB))
                 (Relayer.entropy (1 # 2)) "bb02"
                 ("signed:" ++ Relayer.proofBytes
                                 (Sample.args Sample.session (Some Sample.nodeB))
                                 (Relayer.entropy (1 # 2)) "bb02")
                 (Relayer.hashRequest
                    (Relayer.requestHash (Sample.args Sample.session (Some Sample.nodeB))))))
           "https://b.example:443").
  reflexivity.
Defined.

(** X13. The call reads the block height of the session only through
    [Number(height.toString())]: two heights that denote the same integer
    below 2^53, as a number, a bigint or a string, give the same call. *)
Theorem relay_height_forms
    (a : Relayer.RelayArgs) (h1 h2 : numeric) (z : Z) (keyManager : option KeyManager)
    (provider : JsonRpcProvider) (w : World) :
  Js.Number (toString h1) = Js.Int z ->
  Js.Number (toString h2) = Js.Int z ->
  (Z.abs z < 2 ^ 53)%Z ->
  Relayer.relay (with_height a h1) keyManager provider w =
  Relayer.relay (with_height a h2) keyManager provider w.
Proof.
  intros E1 E2 _. assert (E : Js.Number (toString h1) = Js.Number (toString h2))
    by congruence.
  unfold Relayer.relay, Relayer.proofBytes, Relayer.relayRequest, Relayer.relayProof,
         Relayer.requestHash, Relayer.relayMeta, Relayer.relayPayload,
         Relayer.isNodeInSession, Relayer.getRandomSessionNode.
  cbn [with_height Relayer.blockchain Relayer.data Relayer.headers Relayer.method
       Relayer.node Relayer.path Relayer.pocketAAT Relayer.session
       header nodes sessionBlockHeight].
  rewrite E. reflexivity.
Qed.

Lemma relay_height_forms_witness :
  Relayer.relay (with_height (Sample.args Sample.session None) (OfString " 0x10E1 "))
                (Some Sample.signer) Sample.provider Sample.world =
  Relayer.relay (with_height (Sample.args Sample.session None) (OfNumber (Js.Int 4321)))
                (Some Sample.signer) Sample.provider Sample.world.
Proof.
  apply (relay_height_forms (Sample.args Sample.session None)
                            (OfString " 0x10E1 ") (OfNumber (Js.Int 4321)) 4321).
  - reflexivity.
  - reflexivity.
  - reflexivity.
Defined.


(** ** Reading the hashed text back *)

Section Reading.

Lemma string_tail c a b : String c a = String c b -> a = b.
Proof. now intros [= ->]. Qed.

Lemma unescape_escape c rest : unescape (Js.escape c ++ rest) = Some (c, rest).
Proof. destruct c as [[] [] [] [] [] [] [] []]; reflexivity. Qed.

Lemma escaped_unique s1 : forall s2 r1 r2,
  Js.escaped s1 ++ String Js.double_quote r1 = Js.escaped s2 ++ String Js.double_quote r2 ->
  s1 = s2 /\ r1 = r2.
Proof.
  induction s1 as [|c1 s1 IH]; intros [|c2 s2] r1 r2; cbn [Js.escaped];
    rewrite ?append_assoc; intros E.
  - cbn [append] in E. injection E as E. now split.
  - apply (f_equal unescape) in E. rewrite unescape_escape in E. discriminate E.
  - apply (f_equal unescape) in E. rewrite unescape_escape in E. discriminate E.
  - apply (f_equal unescape) in E. rewrite !unescape_escape in E.
    injection E as -> E. apply IH in E. destruct E as [-> ->]. now split.
Qed.

Lemma quote_unique s1 s2 r1 r2 :
  Js.quote s1 ++ r1 = Js.quote s2 ++ r2 -> s1 = s2 /\ r1 = r2.
Proof.
  unfold Js.quote. cbn [append]. rewrite !append_assoc. cbn [append].
  intros E. injection E as E. now apply escaped_unique.
Qed.

Lemma until_unique c s1 : forall s2 r1 r2,
  ~ In c (list_ascii_of_string s1) -> ~ In c (list_ascii_of_string s2) ->
  s1 ++ String c r1 = s2 ++ String c r2 -> s1 = s2 /\ r1 = r2.
Proof.
  induction s1 as [|a s1 IH]; intros [|b s2] r1 r2 F1 F2 E; cbn in *.
  - injection E as E. now split.
  - injection E as -> _. tauto.
  - injection E as -> _. tauto.
  - injection E as -> E. apply IH in E; [|tauto ..]. destruct E as [-> ->]. now split.
Qed.

Lemma uint_chars d c :
  In c (list_ascii_of_string (NilEmpty.string_of_uint d)) ->
  In c (list_ascii_of_string "0123456789").
Proof.
  induction d; cbn [NilEmpty.string_of_uint list_ascii_of_string In];
    [intros [] | ..];
    intros [<-|H]; try (apply IHd in H); cbn; tauto.
Qed.

Lemma number_chars n c :
  In c (list_ascii_of_string (Js.stringify (Js.Num n))) ->
  In c (list_ascii_of_string "-0123456789nul").
Proof.
  assert (D : forall x, In x (list_ascii_of_string "0123456789") ->
                        In x (list_ascii_of_string "-0123456789nul"))
    by (cbn; tauto).
  destruct n as [z| |b]; cbn [Js.stringify]; try (cbn; tauto).
  unfold Js.decimal. destruct z as [|p|p]; cbn [Z.to_int NilZero.string_of_int].
  - cbn; tauto.
  - rewrite nil_zero_string. intros H. apply D, (uint_chars _ _ H).
  - rewrite nil_zero_string. cbn [list_ascii_of_string In].
    intros [<-|H]; [cbn; tauto | apply D, (uint_chars _ _ H)].
Qed.

Lemma number_text_finite n1 n2 :
  Js.stringify (Js.Num n1) = Js.stringify (Js.Num n2) -> finite n1 = finite n2.
Proof.
  destruct n1 as [z1| |b1], n2 as [z2| |b2]; cbn [Js.stringify finite]; intros E;
    try reflexivity.
  - now apply decimal_inj in E as ->.
  - now apply decimal_not_null in E.
  - now apply decimal_not_null in E.
  - symmetry in E. now apply decimal_not_null in E.
  - symmetry in E. now apply decimal_not_null in E.
Qed.

(** A number ends where a comma or a closing brace begins. *)
Lemma number_unique c n1 n2 r1 r2 :
  c = ","%char \/ c = "}"%char ->
  Js.stringify (Js.Num n1) ++ String c r1 = Js.stringify (Js.Num n2) ++ String c r2 ->
  Js.stringify (Js.Num n1) = Js.stringify (Js.Num n2) /\ r1 = r2.
Proof.
  intros C. apply until_unique; intros H; apply number_chars in H;
    destruct C as [-> | ->]; cbn in H;
    repeat (destruct H as [H|H]; [discriminate H|]); exact H.
Qed.

Lemma headers_text fields :
  Js.stringify (Relayer.headersJSON (Some fields)) = "{" ++ header_members fields ++ "}".
Proof.
  unfold Relayer.headersJSON. cbn [Js.stringify]. do 2 f_equal.
  induction fields as [|[k v] rest IH]; [reflexivity|].
  cbn [map header_members fst snd]. rewrite <- IH.
  destruct rest as [|[k' v'] rest]; reflexivity.
Qed.

Lemma header_members_unique f1 : forall f2 r1 r2,
  header_members f1 ++ String "}" r1 = header_members f2 ++ String "}" r2 ->
  f1 = f2 /\ r1 = r2.
Proof.
  induction f1 as [|[k1 v1] f1 IH]; intros [|[k2 v2] f2] r1 r2;
    cbn [header_members]; rewrite ?append_assoc; cbn [append]; intros E.
  - apply string_tail in E. now split.
  - unfold Js.quote in E. cbn [append] in E. discriminate E.
  - unfold Js.quote in E. cbn [append] in E. discriminate E.
  - apply quote_unique in E. destruct E as [-> E]. apply string_tail in E.
    apply quote_unique in E. destruct E as [-> E].
    destruct f1 as [|p1 f1], f2 as [|p2 f2]; cbn [append] in E.
    + apply string_tail in E. now split.
    + discriminate E.
    + discriminate E.
    + apply string_tail in E. apply IH in E. destruct E as [-> ->]. now split.
Qed.

Lemma headers_unique h1 h2 r1 r2 :
  Js.stringify (Relayer.headersJSON h1) ++ r1 = Js.stringify (Relayer.headersJSON h2) ++ r2 ->
  h1 = h2 /\ r1 = r2.
Proof.
  destruct h1 as [f1|], h2 as [f2|]; rewrite ?headers_text;
    cbn [Relayer.headersJSON Js.stringify]; rewrite ?append_assoc; cbn [append]; intros E.
  - apply string_tail in E. apply header_members_unique in E.
    destruct E as [-> ->]. now split.
  - discriminate E.
  - discriminate E.
  - do 4 apply string_tail in E. now split.
Qed.

End Reading.

Ltac read E :=
  repeat first
    [ apply quote_unique in E; let K := fresh "K" in destruct E as [K E]
    | apply headers_unique in E; let K := fresh "K" in destruct E as [K E]
    | apply (number_unique ","%char) in E;
      [let K := fresh "K" in destruct E as [K E] | now left]
    | apply (number_unique "}"%char) in E;
      [let K := fresh "K" in destruct E as [K E] | now right]
    | apply string_tail in E ].

Lemma token_unique aat1 aat2 :
  Js.stringify (Js.Obj [("version", Js.Str (version aat1));
                        ("app_pub_key", Js.Str (applicationPublicKey aat1));
                        ("client_pub_key", Js.Str (clientPublicKey aat1));
                        ("signature", Js.Str EmptyString)]) =
  Js.stringify (Js.Obj [("version", Js.Str (version aat2));
                        ("app_pub_key", Js.Str (applicationPublicKey aat2));
                        ("client_pub_key", Js.Str (clientPublicKey aat2));
                        ("signature", Js.Str EmptyString)]) ->
  version aat1 = version aat2 /\
  applicationPublicKey aat1 = applicationPublicKey aat2 /\
  clientPublicKey aat1 = clientPublicKey aat2.
Proof.
  cbn [Js.stringify]. rewrite !append_assoc. cbn [append]. intros E.
  read E. auto.
Qed.

(** X14. The text that [hashAAT] hashes reads back in one way only: two
    AATs give the same text exactly when they have the same version,
    application key and client key. So two AATs with the same [hashAAT]
    digest have these three fields in common, unless their two texts are
    a collision of SHA3-256. *)
Theorem hashAAT_separates (aat1 aat2 : PocketAAT) :
  Relayer.hashAAT aat1 = Relayer.hashAAT aat2 ->
  (token_text aat1 = token_text aat2 <->
   version aat1 = version aat2 /\
   applicationPublicKey aat1 = applicationPublicKey aat2 /\
   clientPublicKey aat1 = clientPublicKey aat2) /\
  ((version aat1 = version aat2 /\
    applicationPublicKey aat1 = applicationPublicKey aat2 /\
    clientPublicKey aat1 = clientPublicKey aat2) \/
   (token_text aat1 <> token_text aat2 /\
    Sha3.sha3_256 (token_text aat1) = Sha3.sha3_256 (token_text aat2))).
Proof.
  intros E. split; [split|].
  - apply token_unique.
  - intros (V & A & C). unfold token_text. now rewrite V, A, C.
  - destruct (string_dec (token_text aat1) (token_text aat2)) as [T|T].
    + left. now apply token_unique.
    + right. split; [exact T | exact E].
Qed.

Lemma hashAAT_separates_witness :
  (token_text Sample.aat =
   token_text {| version := "0.0.1"; clientPublicKey := "c1f0";
                 applicationPublicKey := "a1f0"; applicationSignature := "0000" |} <->
   version Sample.aat = "0.0.1" /\
   applicationPublicKey Sample.aat = "a1f0" /\
   clientPublicKey Sample.aat = "c1f0") /\
  ((version Sample.aat = "0.0.1" /\
    applicationPublicKey Sample.aat = "a1f0" /\
    clientPublicKey Sample.aat = "c1f0") \/
   (token_text Sample.aat <>
    token_text {| version := "0.0.1"; clientPublicKey := "c1f0";
                  applicationPublicKey := "a1f0"; applicationSignature := "0000" |} /\
    Sha3.sha3_256 (token_text Sample.aat) =
    Sha3.sha3_256 (token_text {| version := "0.0.1"; clientPublicKey := "c1f0";
                                 applicationPublicKey := "a1f0";
                                 applicationSignature := "0000" |}))).
Proof.
  apply (hashAAT_separates
           Sample.aat
           {| version := "0.0.1"; clientPublicKey := "c1f0";
              applicationPublicKey := "a1f0"; applicationSignature := "0000" |}).
  reflexivity.
Defined.

(** Two AATs that differ in their client key, and their digests. *)
Example hashAAT_other_client :
  Relayer.hashAAT Sample.aat <>
  Relayer.hashAAT {| version := "0.0.1"; clientPublicKey := "c1f1";
                     applicationPublicKey := "a1f0"; applicationSignature := "5e11" |}.
Proof. intros E. vm_compute in E. discriminate E. Qed.

Lemma proofJSONStr_unique e1 h1 s1 c1 a1 r1 e2 h2 s2 c2 a2 r2 :
  Relayer.proofJSONStr e1 h1 s1 c1 a1 r1 = Relayer.proofJSONStr e2 h2 s2 c2 a2 r2 ->
  Js.stringify (Js.Num (Js.Number (toString e1))) =
    Js.stringify (Js.Num (Js.Number (toString e2))) /\
  Js.stringify (Js.Num (Js.Number (toString h1))) =
    Js.stringify (Js.Num (Js.Number (toString h2))) /\
  s1 = s2 /\ c1 = c2 /\
  Relayer.hashAAT a1 = Relayer.hashAAT a2 /\
  Relayer.hashRequest r1 = Relayer.hashRequest r2.
Proof.
  rewrite !proofJSON_text. cbn [append]. intros E.
  read E. auto 10.
Qed.

Lemma requestHash_unique a1 a2 :
  Js.stringify (Relayer.requestHash a1) = Js.stringify (Relayer.requestHash a2) ->
  Relayer.data a1 = Relayer.data a2 /\
  Relayer.method a1 = Relayer.method a2 /\
  Relayer.path a1 = Relayer.path a2 /\
  Relayer.headers a1 = Relayer.headers a2 /\
  Js.stringify (Js.Num (Js.Number (toString (sessionBlockHeight
                                               (header (Relayer.session a1)))))) =
  Js.stringify (Js.Num (Js.Number (toString (sessionBlockHeight
                                               (header (Relayer.session a2)))))).
Proof.
  unfold Relayer.requestHash, Relayer.relayPayload, Relayer.relayMeta.
  cbn [Js.stringify]. rewrite !append_assoc. cbn [append]. intros E.
  read E. auto 10.
Qed.

(** X15. When the entropies and the block heights denote integers of
    magnitude below 2^53 and the request hashes are values that
    [JSON.stringify] serialises, two calls of [generateProofBytes] with the
    same result have the same entropy, block height, servicer key and
    blockchain, AATs with the same token and equal request hashes, unless
    the two texts they hash are a collision of SHA3-256: the text reads
    back in one way only. *)
Theorem generateProofBytes_separates
    (e1 h1 : numeric) (s1 c1 : string) (a1 : PocketAAT) (r1 : Js.value)
    (e2 h2 : numeric) (s2 c2 : string) (a2 : PocketAAT) (r2 : Js.value)
    (ze1 zh1 ze2 zh2 : Z) :
  Js.Number (toString e1) = Js.Int ze1 -> (Z.abs ze1 < 2 ^ 53)%Z ->
  Js.Number (toString h1) = Js.Int zh1 -> (Z.abs zh1 < 2 ^ 53)%Z ->
  Js.Number (toString e2) = Js.Int ze2 -> (Z.abs ze2 < 2 ^ 53)%Z ->
  Js.Number (toString h2) = Js.Int zh2 -> (Z.abs zh2 < 2 ^ 53)%Z ->
  Js.safe r1 = true -> Js.safe r2 = true ->
  Relayer.generateProofBytes e1 h1 s1 c1 a1 r1 =
  Relayer.generateProofBytes e2 h2 s2 c2 a2 r2 ->
  (ze1 = ze2 /\ zh1 = zh2 /\ s1 = s2 /\ c1 = c2 /\
   Relayer.hashAAT a1 = Relayer.hashAAT a2 /\
   Relayer.hashRequest r1 = Relayer.hashRequest r2) \/
  (Relayer.proofJSONStr e1 h1 s1 c1 a1 r1 <> Relayer.proofJSONStr e2 h2 s2 c2 a2 r2 /\
   Sha3.sha3_256 (Relayer.proofJSONStr e1 h1 s1 c1 a1 r1) =
   Sha3.sha3_256 (Relayer.proofJSONStr e2 h2 s2 c2 a2 r2)).
Proof.
  intros E1 _ H1 _ E2 _ H2 _ _ _ E.
  destruct (string_dec (Relayer.proofJSONStr e1 h1 s1 c1 a1 r1)
                       (Relayer.proofJSONStr e2 h2 s2 c2 a2 r2)) as [T|T].
  - left. apply proofJSONStr_unique in T.
    destruct T as (N1 & N2 & T). rewrite E1, E2 in N1. rewrite H1, H2 in N2.
    apply decimal_inj in N1, N2. auto.
  - right. split; [exact T | exact E].
Qed.

Lemma generateProofBytes_separates_witness :
  (7 = 7 /\ 4321 = 4321 /\ "aa01" = "aa01" /\ "0021" = "0021" /\
   Relayer.hashAAT Sample.aat = Relayer.hashAAT Sample.aat /\
   Relayer.hashRequest Js.Null = Relayer.hashRequest Js.Null)%Z \/
  (Relayer.proofJSONStr (OfNumber (Js.Int 7)) (OfBigInt 4321) "aa01" "0021"
                        Sample.aat Js.Null <>
   Relayer.proofJSONStr (OfString "7") (OfNumber (Js.Int 4321)) "aa01" "0021"
                        Sample.aat Js.Null /\
   Sha3.sha3_256 (Relayer.proofJSONStr (OfNumber (Js.Int 7)) (OfBigInt 4321) "aa01" "0021"
                                       Sample.aat Js.Null) =
   Sha3.sha3_256 (Relayer.proofJSONStr (OfString "7") (OfNumber (Js.Int 4321)) "aa01" "0021"
                                       Sample.aat Js.Null)).
Proof.
  apply (generateProofBytes_separates
           (OfNumber (Js.Int 7)) (OfBigInt 4321) "aa01" "0021" Sample.aat Js.Null
           (OfString "7") (OfNumber (Js.Int 4321)) "aa01" "0021" Sample.aat Js.Null
           7 4321 7 4321);
    reflexivity.
Defined.

(** X16. When the block heights of their sessions denote integers of
    magnitude below 2^53, two calls of [relay] whose request hashes are
    equal have the same data, method, path, headers and block height,
    unless the two serialised request-hash objects are a collision of
    SHA3-256. *)
Theorem hashRequest_separates (a1 a2 : Relayer.RelayArgs) (z1 z2 : Z) :
  Js.Number (toString (sessionBlockHeight (header (Relayer.session a1)))) = Js.Int z1 ->
  (Z.abs z1 < 2 ^ 53)%Z ->
  Js.Number (toString (sessionBlockHeight (header (Relayer.session a2)))) = Js.Int z2 ->
  (Z.abs z2 < 2 ^ 53)%Z ->
  Relayer.hashRequest (Relayer.requestHash a1) =
  Relayer.hashRequest (Relayer.requestHash a2) ->
  (Relayer.data a1 = Relayer.data a2 /\
   Relayer.method a1 = Relayer.method a2 /\
   Relayer.path a1 = Relayer.path a2 /\
   Relayer.headers a1 = Relayer.headers a2 /\
   z1 = z2) \/
  (Js.stringify (Relayer.requestHash a1) <> Js.stringify (Relayer.requestHash a2) /\
   Sha3.sha3_256 (Js.stringify (Relayer.requestHash a1)) =
   Sha3.sha3_256 (Js.stringify (Relayer.requestHash a2))).
Proof.
  intros H1 _ H2 _ E.
  destruct (string_dec (Js.stringify (Relayer.requestHash a1))
                       (Js.stringify (Relayer.requestHash a2))) as [T|T].
  - left. apply requestHash_unique in T.
    destruct T as (D & M & P & H & N). rewrite H1, H2 in N.
    apply decimal_inj in N. auto.
  - right. split; [exact T | exact E].
Qed.

Lemma hashRequest_separates_witness :
  (Relayer.data (with_height (Sample.args Sample.session None) (OfString "0x10E1")) =
     Relayer.data (Sample.args Sample.emptySession (Some Sample.nodeB)) /\
   Relayer.method (with_height (Sample.args Sample.session None) (OfString "0x10E1")) =
     Relayer.method (Sample.args Sample.emptySession (Some Sample.nodeB)) /\
   Relayer.path (with_height (Sample.args Sample.session None) (OfString "0x10E1")) =
     Relayer.path (Sample.args Sample.emptySession (Some Sample.nodeB)) /\
   Relayer.headers (with_height (Sample.args Sample.session None) (OfString "0x10E1")) =
     Relayer.headers (Sample.args Sample.emptySession (Some Sample.nodeB)) /\
   4321 = 4321)%Z \/
  (Js.stringify (Relayer.requestHash
                   (with_height (Sample.args Sample.session None) (OfString "0x10E1"))) <>
   Js.stringify (Relayer.requestHash (Sample.args Sample.emptySession (Some Sample.nodeB))) /\
   Sha3.sha3_256
     (Js.stringify (Relayer.requestHash
                      (with_height (Sample.args Sample.session None) (OfString "0x10E1")))) =
   Sha3.sha3_256
     (Js.stringify (Relayer.requestHash
                      (Sample.args Sample.emptySession (Some Sample.nodeB))))).
Proof.
  apply (hashRequest_separates
           (with_height (Sample.args Sample.session None) (OfString "0x10E1"))
           (Sample.args Sample.emptySession (Some Sample.nodeB)) 4321 4321);
    reflexivity.
Defined.

Lemma escaped_hex s : lowercase_hex s = true -> Js.escaped s = s.
Proof.
  unfold lowercase_hex.
  induction s as [|c s IH]; cbn [list_ascii_of_string forallb Js.escaped]; [reflexivity|].
  intros H. apply andb_true_iff in H. destruct H as [C H].
  rewrite (IH H). apply existsb_exists in C. destruct C as (x & I & E).
  apply Ascii.eqb_eq in E. subst x.
  cbn in I. repeat (destruct I as [<-|I]; [reflexivity|]). contradiction.
Qed.

(** X17. For every AAT and every request hash that [JSON.stringify]
    serialises (null, a number, a string or an object of these), [hashAAT]
    and [hashRequest] return 64 lowercase hexadecimal digits, and
    [JSON.stringify] puts such a digest between quotes as it is, with
    nothing escaped: the token and the request hash stand verbatim in the
    text that [generateProofBytes] hashes. On [undefined], which
    [JSON.stringify] does not serialise, [hashRequest] throws, and so does
    [generateProofBytes]. *)
Theorem digests_verbatim (aat : PocketAAT) (requestHash : Js.value) :
  String.length (Relayer.hashAAT aat) = 64%nat /\
  lowercase_hex (Relayer.hashAAT aat) = true /\
  String.length (Relayer.hashRequest requestHash) = 64%nat /\
  lowercase_hex (Relayer.hashRequest requestHash) = true /\
  Js.stringify (Js.Str (Relayer.hashAAT aat)) =
    String Js.double_quote (Relayer.hashAAT aat ++ String Js.double_quote EmptyString) /\
  Js.stringify (Js.Str (Relayer.hashRequest requestHash)) =
    String Js.double_quote
           (Relayer.hashRequest requestHash ++ String Js.double_quote EmptyString) /\
  Relayer.hashRequest_any (Some requestHash) = inr (Relayer.hashRequest requestHash) /\
  Relayer.hashRequest_any None = inl (Error "input is invalid type") /\
  (forall entropy height servicer chain,
     Relayer.generateProofBytes_any entropy height servicer chain aat None =
     inl (Error "input is invalid type")).
Proof.
  unfold Relayer.hashAAT, Relayer.hashRequest. cbn [Js.stringify]. unfold Js.quote.
  split; [apply sha3_256_shape|]. split; [apply sha3_256_shape|].
  split; [apply sha3_256_shape|]. split; [apply sha3_256_shape|].
  split; [rewrite escaped_hex; [reflexivity | apply sha3_256_shape]|].
  split; [rewrite escaped_hex; [reflexivity | apply sha3_256_shape]|].
  split; [reflexivity|]. split; reflexivity.
Qed.

(** X18. When the caller supplies no node, the membership check never
    stops the call: without a signer the call fails with
    [MissingSignerError] and the world is left as it was; with a signer,
    either the session gave no node, and the call fails with
    [NoServiceNodeError] after its one draw, or the call goes on to ask
    for a signature on the proof bytes made for a node of the session. *)
Theorem relay_unsupplied_reaches_signer
    (a : Relayer.RelayArgs) (keyManager : option KeyManager) (provider : JsonRpcProvider)
    (w : World) :
  Relayer.node a = None ->
  (keyManager = None /\
   Relayer.relay a keyManager provider w = (inl MissingSignerError, w)) \/
  (keyManager <> None /\
   Relayer.relay a keyManager provider w =
     (inl NoServiceNodeError, snd (Math_random w))) \/
  (keyManager <> None /\
   exists n : Node,
     In n (nodes (Relayer.session a)) /\
     signed (trace (snd (Relayer.relay a keyManager provider w))) =
       (signed (trace w) ++
        [Relayer.proofBytes a (Relayer.entropy (random w (S (drawn w))))
                            (publicKey n)])%list).
Proof.
  intros E.
  destruct keyManager as [signer|]; [|left; now split].
  right.
  destruct (relay_resolution a signer provider w)
    as [(n & N & _) | [(n & _ & M & ->) | (_ & ->)]];
    [congruence | | left; split; [discriminate | reflexivity]].
  right. split; [discriminate|]. exists n. split; [exact M|].
  assert (I : Relayer.isNodeInSession (Relayer.session a) n = true)
    by (apply isNodeInSession_spec, in_map, M).
  unfold relay_from. rewrite I.
  destruct (sign signer _); [|destruct (provider_relay provider _ _)];
    footprint; reflexivity.
Qed.

Lemma relay_unsupplied_reaches_signer_witness :
  (Some Cases.locked = None /\
   Relayer.relay (Sample.args Sample.session None) (Some Cases.locked)
                 Sample.provider Cases.turning = (inl MissingSignerError, Cases.turning)) \/
  (Some Cases.locked <> None /\
   Relayer.relay (Sample.args Sample.session None) (Some Cases.locked)
                 Sample.provider Cases.turning =
     (inl NoServiceNodeError, snd (Math_random Cases.turning))) \/
  (Some Cases.locked <> None /\
   exists n : Node,
     In n (nodes (Relayer.session (Sample.args Sample.session None))) /\
     signed (trace (snd (Relayer.relay (Sample.args Sample.session None) (Some Cases.locked)
                                       Sample.provider Cases.turning))) =
       (signed (trace Cases.turning) ++
        [Relayer.proofBytes (Sample.args Sample.session None)
                            (Relayer.entropy (random Cases.turning (S (drawn Cases.turning))))
                            (publicKey n)])%list).
Proof.
  apply (relay_unsupplied_reaches_signer (Sample.args Sample.session None)
                                         (Some Cases.locked) Sample.provider Cases.turning).
  reflexivity.
Defined.
